(** * honeylager: a lager sink that forwards log records to Honeycomb

    Shallow embedding of [honeylager.go] (the current sink) and of the
    earlier revision of the same file (module [Legacy]), together with the
    parts of the Go runtime, of [strconv], [time], [math/rand] and of
    [libhoney] that the sink calls.

    Conventions.
    - Go's [int], [int64] and [lager.LogLevel] are [Z]; where Go's arithmetic
      can wrap, the wrap-around is written out ([wrap64]).
    - [float64] is [spec_float] at precision 53 and maximal exponent 1024,
      with the Standard Library's correctly rounded operations.
    - [interface{}] is the inductive [Value]; Go maps with string keys are
      [gmap string Value].
    - A Go map is a reference: the caller's [lager.Data] lives in a store
      (the field [heap] of [World]) and the record only holds its address,
      so that the [delete] performed by [Log] is visible to the caller.
    - What one call gets from its environment (the clock, the random source,
      the call stack, memory statistics, the transport's verdict) is
      gathered in the record [Env].
    - To submit an event is to call [Send] on it; the error [Send] may
      return at once is the transport's business and is only printed. *)

From Stdlib Require Import ZArith String Ascii List Lia Bool.
From Stdlib Require Import Floats.SpecFloat.
From stdpp Require Import base option gmap strings list fin_maps.

Open Scope Z_scope.

(** ** Go's numeric types *)

Module GoNum.

Definition MinInt64 : Z := - 2 ^ 63.
Definition MaxInt64 : Z := 2 ^ 63 - 1.

(** math.MaxInt32 *)
Definition MaxInt32 : Z := 2 ^ 31 - 1.

(** Two's complement reduction of an integer to [int64]. *)
Definition wrap64 (z : Z) : Z := (z + 2 ^ 63) mod 2 ^ 64 - 2 ^ 63.

Definition float64 : Type := spec_float.

Definition prec : Z := 53.
Definition emax : Z := 1024.

(** Rounding of [m * 2^e] (sign [neg]) to the nearest float64, ties to
    even. *)
Definition round_float64 (neg : bool) (m e : Z) : float64 :=
  match m with
  | Zpos p => binary_round prec emax neg p e
  | _ => S754_zero neg
  end.

(** The conversion [float64(z)] of an integer. *)
Definition float64_of_int64 (z : Z) : float64 :=
  binary_normalize prec emax z 0 false.

Definition fsub (x y : float64) : float64 := SFsub prec emax x y.
Definition fmul (x y : float64) : float64 := SFmul prec emax x y.

(** The real value of a finite float, truncated toward zero. *)
Definition trunc_float64 (f : float64) : option Z :=
  match f with
  | S754_zero _ => Some 0
  | S754_finite s m e =>
      let a := if 0 <=? e then Zpos m * 2 ^ e else Zpos m / 2 ^ (- e) in
      Some (if s then - a else a)
  | S754_infinity _ | S754_nan => None
  end.

(** The conversion [int64(f)].  It truncates toward zero.  For a value
    that int64 cannot hold (too large, infinite, NaN) the Go specification
    leaves the result to the implementation; this is amd64's, where the
    conversion instruction yields the smallest int64. *)
Definition int64_of_float64 (f : float64) : Z :=
  match trunc_float64 f with
  | Some z => if (MinInt64 <=? z) && (z <=? MaxInt64) then z else MinInt64
  | None => MinInt64
  end.

End GoNum.

(** ** strconv.ParseFloat

    Library code, embedded from its documented behaviour (Go 1.13 and
    later): the accepted syntax is the one of [readFloat] and [special]
    (decimal and hexadecimal mantissa, optional exponent, digit-separating
    underscores, the names inf, infinity and nan), and a well-formed string
    yields the nearest float64, ties to even.  The mantissa is kept exactly, so the result is
    correctly rounded whatever the number of digits.  The bit-size argument
    of [ParseFloat] selects float32 only when it is 32; the sink passes 9,
    which means float64. *)

Module strconv.
Import GoNum.

Inductive ErrKind := ErrSyntax | ErrRange.

(** *strconv.NumError *)
Record NumError := { Func : string; Num : string; Err : ErrKind }.

Definition syntaxError (fn str : string) : NumError :=
  {| Func := fn; Num := str; Err := ErrSyntax |}.
Definition rangeError (fn str : string) : NumError :=
  {| Func := fn; Num := str; Err := ErrRange |}.

Definition fnParseFloat : string := "ParseFloat".

Definition byte (c : ascii) : Z := Z.of_N (N_of_ascii c).
(** [lower(c)] is [c | ('x' - 'X')]. *)
Definition lower (c : ascii) : Z := Z.lor (byte c) 32.
Definition is_digit (c : ascii) : bool := (48 <=? byte c) && (byte c <=? 57).
Definition is_hex_letter (c : ascii) : bool := (97 <=? lower c) && (lower c <=? 102).
Definition is_sign (c : ascii) : bool := (byte c =? 43) || (byte c =? 45).
Definition is_underscore (c : ascii) : bool := byte c =? 95.
Definition is_dot (c : ascii) : bool := byte c =? 46.

(** State of the mantissa loop of [readFloat]: the digits read so far as
    one integer, how many of them followed the point, and the flags. *)
Record Mant := {
  mant : Z;
  fracDigits : Z;
  sawdot : bool;
  sawdigits : bool;
  underscores : bool
}.

Definition mant0 : Mant :=
  {| mant := 0; fracDigits := 0; sawdot := false; sawdigits := false;
     underscores := false |}.

Definition push_digit (base d : Z) (st : Mant) : Mant :=
  {| mant := mant st * base + d;
     fracDigits := if sawdot st then fracDigits st + 1 else fracDigits st;
     sawdot := sawdot st; sawdigits := true; underscores := underscores st |}.

Fixpoint readMantissa (hex : bool) (st : Mant) (s : list ascii) : Mant * list ascii :=
  match s with
  | [] => (st, [])
  | c :: s' =>
      if is_underscore c then
        readMantissa hex
          {| mant := mant st; fracDigits := fracDigits st; sawdot := sawdot st;
             sawdigits := sawdigits st; underscores := true |} s'
      else if is_dot c then
        if sawdot st then (st, s)
        else readMantissa hex
               {| mant := mant st; fracDigits := fracDigits st; sawdot := true;
                  sawdigits := sawdigits st; underscores := underscores st |} s'
      else if is_digit c then
        readMantissa hex (push_digit (if hex then 16 else 10) (byte c - 48) st) s'
      else if hex && is_hex_letter c then
        readMantissa hex (push_digit 16 (lower c - 97 + 10) st) s'
      else (st, s)
  end.

(** Digits of the exponent; the accumulated value stops growing once it
    has reached 10000. *)
Fixpoint readExpDigits (e : Z) (us : bool) (s : list ascii) : Z * bool * list ascii :=
  match s with
  | [] => (e, us, [])
  | c :: s' =>
      if is_underscore c then readExpDigits e true s'
      else if is_digit c then
        readExpDigits (if e <? 10000 then e * 10 + (byte c - 48) else e) us s'
      else (e, us, s)
  end.

(** [underscoreOK]: an underscore is allowed only between two digits, or
    between a base prefix and a digit.  [saw] is the last character class
    seen: 0 for the beginning, 1 for a digit or base prefix, 2 for an
    underscore, 3 for anything else. *)
Fixpoint underscoreLoop (hex : bool) (saw : nat) (s : list ascii) : bool :=
  match s with
  | [] => negb (Nat.eqb saw 2)
  | c :: s' =>
      if is_digit c || (hex && is_hex_letter c) then underscoreLoop hex 1 s'
      else if is_underscore c then
        if Nat.eqb saw 1 then underscoreLoop hex 2 s' else false
      else if Nat.eqb saw 2 then false
      else underscoreLoop hex 3 s'
  end.

Definition underscoreOK (s : list ascii) : bool :=
  let s := match s with
           | c :: s' => if is_sign c then s' else s
           | [] => s
           end in
  match s with
  | c0 :: c1 :: s' =>
      if (byte c0 =? 48) && ((lower c1 =? 98) || (lower c1 =? 111) || (lower c1 =? 120))
      then underscoreLoop (lower c1 =? 120) 1 s'
      else underscoreLoop false 0 s
  | _ => underscoreLoop false 0 s
  end.

(** What [readFloat] hands back on success: the number is
    [(-1)^neg * mantissa * B^exp] with [B] 2 for a hexadecimal mantissa
    and 10 otherwise; [rest] is the unread suffix. *)
Record Read := {
  neg : bool;
  hex : bool;
  mantissa : Z;
  exp : Z;
  rest : list ascii
}.

Definition readFloat (s : list ascii) : option Read :=
  match s with
  | [] => None
  | c :: s' =>
      let neg := byte c =? 45 in
      let s1 := if is_sign c then s' else s in
      let hex := match s1 with
                 | c0 :: c1 :: _ :: _ => (byte c0 =? 48) && (lower c1 =? 120)
                 | _ => false
                 end in
      let s2 := if hex then drop 2 s1 else s1 in
      let '(m, s3) := readMantissa hex mant0 s2 in
      if negb (sawdigits m) then None else
      let dp := if hex then - (4 * fracDigits m) else - fracDigits m in
      let expChar := if hex then 112 else 101 in
      let finish (e : Z) (us : bool) (r : list ascii) : option Read :=
        if us && negb (underscoreOK (take (length s - length r)%nat s)) then None
        else Some {| neg := neg; hex := hex; mantissa := mant m;
                     exp := dp + e; rest := r |} in
      match s3 with
      | c :: s4 =>
          if lower c =? expChar then
            match s4 with
            | [] => None
            | d :: s5 =>
                let esign := if byte d =? 45 then -1 else 1 in
                let s6 := if is_sign d then s5 else s4 in
                match s6 with
                | d0 :: _ =>
                    if is_digit d0 then
                      let '(e, us, r) := readExpDigits 0 (underscores m) s6 in
                      finish (e * esign) us r
                    else None
                | [] => None
                end
            end
          else if hex then None
          else finish 0 (underscores m) s3
      | [] => if hex then None else finish 0 (underscores m) s3
      end
  end.

(** Nearest float64 of [m * 10^e10], for [0 < m].  With a negative
    exponent the quotient is computed with enough extra bits and a sticky
    bit, so that the single rounding that follows is the rounding of the
    exact value. *)
Definition decimal_to_float64 (neg : bool) (m e10 : Z) : float64 :=
  if 0 <=? e10 then round_float64 neg (m * 10 ^ e10) 0
  else
    let d := 10 ^ (- e10) in
    let k := Z.max 0 (56 + Z.log2 d - Z.log2 m) in
    let q := (m * 2 ^ k) / d in
    let sticky := if (m * 2 ^ k) mod d =? 0 then 0 else 1 in
    round_float64 neg (2 * q + sticky) (- (k + 1)).

(** Case-insensitive length of the common prefix of [s] and the
    lower-case word [p]. *)
Fixpoint commonPrefixLenIgnoreCase (s p : list ascii) : nat :=
  match s, p with
  | c :: s', x :: p' =>
      let c' := if (65 <=? byte c) && (byte c <=? 90) then byte c + 32 else byte c in
      if c' =? byte x then S (commonPrefixLenIgnoreCase s' p') else O
  | _, _ => O
  end.

(** [special]: the infinities and NaN; returns the value and the unread
    suffix. *)
Definition special_inf (sign : bool) (s : list ascii) : option (float64 * list ascii) :=
  let n := commonPrefixLenIgnoreCase s (list_ascii_of_string "infinity") in
  let n := if (3 <? n)%nat && (n <? 8)%nat then 3%nat else n in
  if Nat.eqb n 3 || Nat.eqb n 8 then Some (S754_infinity sign, drop n s) else None.

Definition special (s : list ascii) : option (float64 * list ascii) :=
  match s with
  | [] => None
  | c :: s' =>
      if is_sign c then special_inf (byte c =? 45) s'
      else if lower c =? 105 then special_inf false s
      else if lower c =? 110 then
        if Nat.eqb (commonPrefixLenIgnoreCase s (list_ascii_of_string "nan")) 3
        then Some (S754_nan, drop 3 s) else None
      else None
  end.

(** [atof64]: value, unread suffix, error. *)
Definition atof64 (str : string) : float64 * list ascii * option NumError :=
  let s := list_ascii_of_string str in
  match special s with
  | Some (v, r) => (v, r, None)
  | None =>
      match readFloat s with
      | None => (S754_zero false, s, Some (syntaxError fnParseFloat str))
      | Some r =>
          let f := if mantissa r =? 0 then S754_zero (neg r)
                   else if hex r then round_float64 (neg r) (mantissa r) (exp r)
                   else decimal_to_float64 (neg r) (mantissa r) (exp r) in
          match f with
          | S754_infinity _ => (f, rest r, Some (rangeError fnParseFloat str))
          | _ => (f, rest r, None)
          end
      end
  end.

(** [ParseFloat(s, bitSize)] for a [bitSize] other than 32.  A string
    that [atof64] did not read to its end is a syntax error. *)
Definition ParseFloat (str : string) : float64 + NumError :=
  let '(f, r, err) := atof64 str in
  match r, err with
  | [], None => inl f
  | [], Some e => inr e
  | _ :: _, _ => inr (syntaxError fnParseFloat str)
  end.

End strconv.

(** ** time.Time and time.Unix *)

Module time.
Import GoNum.

(** An instant: whole seconds since the Unix epoch (what [t.Unix()]
    returns) and the nanoseconds within that second (what
    [t.Nanosecond()] returns). *)
Record Time := { sec : Z; nsec : Z }.

(** [time.Unix(sec, nsec)].  A nanosecond count outside [0, 999999999] is
    folded into the seconds; Go's [/] truncates toward zero. *)
Definition Unix (sec nsec : Z) : Time :=
  if (nsec <? 0) || (1000000000 <=? nsec) then
    let n := Z.quot nsec 1000000000 in
    let sec := wrap64 (sec + n) in
    let nsec := nsec - n * 1000000000 in
    if nsec <? 0
    then {| sec := wrap64 (sec - 1); nsec := nsec + 1000000000 |}
    else {| sec := sec; nsec := nsec |}
  else {| sec := sec; nsec := nsec |}.

(** time.Duration, in nanoseconds. *)
Definition Duration : Type := Z.

End time.

(** ** Values of type interface{} *)

#[warnings="-register-all"] Inductive Value :=
| VNil
| VBool (b : bool)
| VInt (z : Z)
| VUint64 (z : Z)
| VFloat64 (f : GoNum.float64)
| VString (s : string)
| VLogLevel (l : Z)
| VNumError (e : strconv.NumError)
| VMap (m : gmap string Value).

(** Go values of type error that the package meets or builds. *)
Inductive error :=
| NumErrorOf (e : strconv.NumError)
  (** fmt.Errorf("bad status code: '%d', err: '%v', response body: '%s'", ...) *)
| BadStatusCode (StatusCode : Z) (Err : option string) (Body : string)
  (** fmt.Errorf("metadata was nil") *)
| MetadataWasNil
  (** fmt.Errorf("metadata was not expected type map[string]interface{}, metadata: %+v", ...) *)
| MetadataNotMap (Metadata : Value)
  (** any other error, by its message *)
| ErrorString (msg : string).

(** A line written to standard output. *)
Inductive Line :=
  (** fmt.Printf("honeylager error: %v\n", err) *)
| HoneylagerError (err : error)
  (** fmt.Printf("Successfully sent event %v to Honeycomb in %v\n", id, d) *)
| SuccessfullySent (id : Value) (d : time.Duration).

(** ** libhoney: events *)

Module libhoney.

(** Modelled from the spec: the transport's event, with [add_field],
    [add(mapping)], a settable timestamp and opaque metadata; its fields
    are a mapping from names to values, so that a field written twice
    keeps the last value written. *)
Record Event := {
  WriteKey : string;
  Dataset : string;
  Timestamp : time.Time;
  Metadata : Value;
  data : gmap string Value
}.

Definition set_data (d : gmap string Value) (ev : Event) : Event :=
  {| WriteKey := WriteKey ev; Dataset := Dataset ev; Timestamp := Timestamp ev;
     Metadata := Metadata ev; data := d |}.

Definition set_Timestamp (t : time.Time) (ev : Event) : Event :=
  {| WriteKey := WriteKey ev; Dataset := Dataset ev; Timestamp := t;
     Metadata := Metadata ev; data := data ev |}.

Definition set_Metadata (m : Value) (ev : Event) : Event :=
  {| WriteKey := WriteKey ev; Dataset := Dataset ev; Timestamp := Timestamp ev;
     Metadata := m; data := data ev |}.

(** [ev.AddField(key, val)], the spec's [add_field]: [ev.data[key] = val]. *)
Definition AddField (key : string) (val : Value) (ev : Event) : Event :=
  set_data (<[key := val]> (data ev)) ev.

(** [ev.Add(m)] for a map [m], the spec's [add(mapping)]: every entry of
    [m] is assigned to [ev.data], one after the other. *)
Definition Add (m : gmap string Value) (ev : Event) : Event :=
  set_data (map_fold (fun key val d => <[key := val]> d) (data ev) m) ev.

End libhoney.

(** ** What a call gets from the process it runs in *)

Record Env := {
  (** time.Now() *)
  time_Now : time.Time;
  (** runtime.NumGoroutine() *)
  runtime_NumGoroutine : Z;
  (** runtime.ReadMemStats: the field Alloc *)
  runtime_MemStats_Alloc : Z;
  (** runtime.Caller(skip) followed by runtime.FuncForPC(pc).Name(): the
      name of the function [skip] frames above the caller, when the stack
      has such a frame *)
  runtime_Caller : Z -> option string;
  (** rand.Intn(n), as this call draws it from the global source *)
  rand_Intn : Z -> Z;
  (** the error [ev.Send()] returns, if any *)
  transport_Send : libhoney.Event -> option error
}.

(** math/rand's contract: [Intn(n)] lies in the half-open interval
    [0, n). *)
Definition rand_Intn_ok (env : Env) : Prop :=
  forall n, 0 < n -> 0 <= rand_Intn env n < n.

(** ** The state a call acts on *)

(** Address of a Go map in the store. *)
Definition loc : Type := positive.

Record World := {
  (** Go maps owned by the callers of the sink *)
  heap : gmap loc (gmap string Value);
  (** the events [Send] was called on, oldest first *)
  sent : list libhoney.Event;
  (** the lines printed so far, oldest first *)
  stdout : list Line
}.

Definition M (A : Type) : Type := World -> A * World.

Definition ret {A} (a : A) : M A := fun w => (a, w).

Definition bind {A B} (m : M A) (k : A -> M B) : M B :=
  fun w => let '(a, w') := m w in k a w'.

Notation "'let*' x ':=' m 'in' k" := (bind m (fun x => k))
  (at level 10, x pattern, m at level 100, k at level 200).

(** A map variable: nil, or the address of a map. *)
Definition MapRef : Type := option loc.

(** The entries of the map behind [r]; a nil map has none, and neither has
    an address the store does not hold. *)
Definition map_entries (r : MapRef) : M (gmap string Value) :=
  fun w => (match r with
            | Some l => default ∅ (heap w !! l)
            | None => ∅
            end, w).

(** [v, ok := m[key]] *)
Definition map_index (r : MapRef) (key : string) : M (option Value) :=
  let* m := map_entries r in ret (m !! key).

(** [delete(m, key)]; a no-op on a nil map. *)
Definition map_delete (r : MapRef) (key : string) : M unit :=
  fun w => (tt, match r with
                | Some l => {| heap := alter (delete key) l (heap w);
                               sent := sent w; stdout := stdout w |}
                | None => w
                end).

Definition Printf (l : Line) : M unit :=
  fun w => (tt, {| heap := heap w; sent := sent w; stdout := stdout w ++ [l] |}).

(** [ev.Send()]: the event is handed to the transport, which answers with
    an error or with nil. *)
Definition Send (env : Env) (ev : libhoney.Event) : M (option error) :=
  fun w => (transport_Send env ev,
            {| heap := heap w; sent := sent w ++ [ev]; stdout := stdout w |}).

(** ** libhoney: builders *)

(** Modelled from the spec: the event builder holds the submission
    configuration and the dynamic fields, each a name and a function
    evaluated afresh whenever an event is constructed. *)
Record Builder := {
  builder_WriteKey : string;
  builder_Dataset : string;
  dynFields : list (string * (Env -> Value))
}.

(** [libhoney.NewBuilder()] in a process that has set no global field (the
    package never does). *)
Definition NewBuilder : Builder :=
  {| builder_WriteKey := EmptyString; builder_Dataset := EmptyString;
     dynFields := [] |}.

Definition AddDynamicField (name : string) (fn : Env -> Value) (b : Builder) : Builder :=
  {| builder_WriteKey := builder_WriteKey b; builder_Dataset := builder_Dataset b;
     dynFields := dynFields b ++ [(name, fn)] |}.

(** [b.NewEvent()]: a new event stamped with the current time, carrying
    the value each dynamic field has now. *)
Definition NewEvent (env : Env) (b : Builder) : libhoney.Event :=
  fold_left (fun ev d => libhoney.AddField (fst d) (snd d env) ev) (dynFields b)
    {| libhoney.WriteKey := builder_WriteKey b;
       libhoney.Dataset := builder_Dataset b;
       libhoney.Timestamp := time_Now env;
       libhoney.Metadata := VNil;
       libhoney.data := ∅ |}.

(** A delivery outcome read from [libhoney.Responses()]. *)
Record Response := {
  StatusCode : Z;
  Err : option string;
  Body : string;
  Duration : time.Duration;
  Metadata : Value
}.

(** ** lager *)

Module lager.

(** Modelled from the spec: the levels are the ordered enumeration DEBUG,
    INFO, ERROR, FATAL, an integer type whose constants are numbered from
    zero in that order. *)
Definition LogLevel : Type := Z.
Definition DEBUG : LogLevel := 0.
Definition INFO : LogLevel := 1.
Definition ERROR : LogLevel := 2.
Definition FATAL : LogLevel := 3.

(** Modelled from the spec: the log record.  [Data] is a Go map, hence a
    reference into the caller's store.  The field [Level] is Go's
    [LogLevel], a name taken here by the type. *)
Record LogFormat := {
  Timestamp : string;
  Source : string;
  Message : string;
  Level : LogLevel;
  Data : MapRef
}.

End lager.

(** ** honeylager.go *)

Definition metadataKeyID : string := "id".

Record Sink := {
  minLogLevel : lager.LogLevel;
  builder : Builder
}.

Definition NewSink (honeycombWriteKey honeycombDataset : string)
    (minLogLevel : lager.LogLevel) : Sink :=
  let b := NewBuilder in
  let b := {| builder_WriteKey := honeycombWriteKey;
              builder_Dataset := honeycombDataset;
              dynFields := dynFields b |} in
  let b := AddDynamicField "num_goroutines"
             (fun env => VInt (runtime_NumGoroutine env)) b in
  let b := AddDynamicField "memory_allocation"
             (fun env => VUint64 (runtime_MemStats_Alloc env)) b in
  {| minLogLevel := minLogLevel; builder := b |}.

Definition printError (err : error) : M unit :=
  Printf (HoneylagerError err).

Definition parseLagerTimestamp (ts : string) : time.Time + strconv.NumError :=
  match strconv.ParseFloat ts with
  | inr err => inr err
  | inl timeFloat =>
      let seconds := GoNum.int64_of_float64 timeFloat in
      let nanos :=
        GoNum.int64_of_float64
          (GoNum.fmul (GoNum.fsub timeFloat (GoNum.float64_of_int64 seconds))
                      (GoNum.float64_of_int64 1000000000)) in
      inl (time.Unix seconds nanos)
  end.

Definition logLevelToString (logLevel : lager.LogLevel) : string :=
  if logLevel =? lager.DEBUG then "DEBUG"
  else if logLevel =? lager.INFO then "INFO"
  else if logLevel =? lager.ERROR then "ERROR"
  else if logLevel =? lager.FATAL then "FATAL"
  else "UNKNOWN".

Definition Log (env : Env) (sink : Sink) (logFormat : lager.LogFormat) : M unit :=
  if lager.Level logFormat <? minLogLevel sink then ret tt else
  let ev := NewEvent env (builder sink) in
  let functionOffset := 2 in
  let ev := match runtime_Caller env functionOffset with
            | Some funcName => libhoney.AddField "function" (VString funcName) ev
            | None => ev
            end in
  let ev := libhoney.set_Metadata
              (VMap {[ metadataKeyID := VInt (rand_Intn env GoNum.MaxInt32) ]}) ev in
  let ev := libhoney.AddField "lager_source" (VString (lager.Source logFormat)) ev in
  let ev := libhoney.AddField "lager_message" (VString (lager.Message logFormat)) ev in
  let ev := libhoney.AddField "lager_log_level_iota" (VLogLevel (lager.Level logFormat)) ev in
  let ev := libhoney.AddField "lager_log_level"
              (VString (logLevelToString (lager.Level logFormat))) ev in
  let* found := map_index (lager.Data logFormat) "session" in
  let* ev := match found with
             | Some session =>
                 let ev := libhoney.AddField "lager_session" session ev in
                 let* _ := map_delete (lager.Data logFormat) "session" in
                 ret ev
             | None => ret ev
             end in
  let* data := map_entries (lager.Data logFormat) in
  let ev := libhoney.Add data ev in
  let ev := match parseLagerTimestamp (lager.Timestamp logFormat) with
            | inr err =>
                libhoney.AddField "lager_timestamp_parse_error" (VNumError err) ev
            | inl ts => libhoney.set_Timestamp ts ev
            end in
  let* err := Send env ev in
  match err with
  | Some err => printError err
  | None => ret tt
  end.

(** The body of the loop of [ReadResponses], for one outcome. *)
Definition ReadResponses_body (r : Response) : M unit :=
  if (StatusCode r <? 200) || (300 <=? StatusCode r) then
    printError (BadStatusCode (StatusCode r) (Err r) (Body r))
  else
    match Metadata r with
    | VNil => printError MetadataWasNil
    | VMap metadataMap =>
        Printf (SuccessfullySent (default VNil (metadataMap !! metadataKeyID)) (Duration r))
    | other => printError (MetadataNotMap other)
    end.

(** What a receive on the channel of outcomes yields: the next outcome,
    or the news that the channel is closed and empty. *)
Inductive Recv :=
| Received (r : Response)
| Closed.

(** Where [ReadResponses] stands: inside its loop, or returned. *)
Inductive Loop := Ranging | Returned.

(** One turn of [for r := range libhoney.Responses()]. *)
Definition ReadResponses_step (s : Loop) (x : Recv) : M Loop :=
  match s, x with
  | Ranging, Received r => let* _ := ReadResponses_body r in ret Ranging
  | Ranging, Closed => ret Returned
  | Returned, _ => ret Returned
  end.

(** The loop run against what the channel yields, in order. *)
Fixpoint ReadResponses_run (s : Loop) (xs : list Recv) : M Loop :=
  match xs with
  | [] => ret s
  | x :: xs' => let* s' := ReadResponses_step s x in ReadResponses_run s' xs'
  end.

(** [ReadResponses()] on a channel that delivers [rs] and is then closed. *)
Definition ReadResponses (rs : list Response) : M Loop :=
  ReadResponses_run Ranging (map Received rs ++ [Closed]).

(** ** The earlier revision of honeylager.go

    It differs from the current one in [Log] only: no "function" field and
    no treatment of the "session" entry. *)

Module Legacy.

Definition Log (env : Env) (sink : Sink) (logFormat : lager.LogFormat) : M unit :=
  if lager.Level logFormat <? minLogLevel sink then ret tt else
  let ev := NewEvent env (builder sink) in
  let ev := libhoney.set_Metadata
              (VMap {[ metadataKeyID := VInt (rand_Intn env GoNum.MaxInt32) ]}) ev in
  let ev := libhoney.AddField "lager_source" (VString (lager.Source logFormat)) ev in
  let ev := libhoney.AddField "lager_message" (VString (lager.Message logFormat)) ev in
  let ev := libhoney.AddField "lager_log_level_iota" (VLogLevel (lager.Level logFormat)) ev in
  let ev := libhoney.AddField "lager_log_level"
              (VString (logLevelToString (lager.Level logFormat))) ev in
  let* data := map_entries (lager.Data logFormat) in
  let ev := libhoney.Add data ev in
  let ev := match parseLagerTimestamp (lager.Timestamp logFormat) with
            | inr err =>
                libhoney.AddField "lager_timestamp_parse_error" (VNumError err) ev
            | inl ts => libhoney.set_Timestamp ts ev
            end in
  let* err := Send env ev in
  match err with
  | Some err => printError err
  | None => ret tt
  end.

End Legacy.

(** ** Vocabulary of the statements *)

(** The entries, in world [w], of the map a record's [Data] refers to. *)
Definition data_of (w : World) (r : MapRef) : gmap string Value :=
  fst (map_entries r w).

(** [run], started in [w], hands exactly one event to the transport. *)
Definition submits (run : M unit) (w : World) (ev : libhoney.Event) : Prop :=
  sent (snd (run w)) = sent w ++ [ev].

Definition opt_insert (key : string) (o : option Value) (m : gmap string Value) :
    gmap string Value :=
  match o with
  | Some v => <[key := v]> m
  | None => m
  end.

(** The parse error of a timestamp, as a field value. *)
Definition parse_error_of (ts : string) : option Value :=
  match parseLagerTimestamp ts with
  | inr e => Some (VNumError e)
  | inl _ => None
  end.

(** The four fields both revisions write from the record. *)
Definition lager_fields (r : lager.LogFormat) (m : gmap string Value) : gmap string Value :=
  <["lager_log_level" := VString (logLevelToString (lager.Level r))]>
    (<["lager_log_level_iota" := VLogLevel (lager.Level r)]>
       (<["lager_message" := VString (lager.Message r)]>
          (<["lager_source" := VString (lager.Source r)]> m))).

(** The fields of the event [Log] submits for a record whose data is [d],
    written by precedence: a later layer hides an earlier one of the same
    name. *)
Definition Log_fields (env : Env) (sink : Sink) (r : lager.LogFormat)
    (d : gmap string Value) : gmap string Value :=
  opt_insert "lager_timestamp_parse_error" (parse_error_of (lager.Timestamp r))
    (delete "session" d ∪
     opt_insert "lager_session" (d !! "session")
       (lager_fields r
          (opt_insert "function" (VString <$> runtime_Caller env 2)
             (libhoney.data (NewEvent env (builder sink)))))).

(** The same for the earlier revision. *)
Definition Legacy_fields (env : Env) (sink : Sink) (r : lager.LogFormat)
    (d : gmap string Value) : gmap string Value :=
  opt_insert "lager_timestamp_parse_error" (parse_error_of (lager.Timestamp r))
    (d ∪ lager_fields r (libhoney.data (NewEvent env (builder sink)))).

(** The names of the fields the sink writes by itself. *)
Definition sink_field_names : list string :=
  ["lager_source"; "lager_message"; "lager_log_level_iota"; "lager_log_level";
   "function"; "lager_session"; "num_goroutines"; "memory_allocation";
   "lager_timestamp_parse_error"].

(** Event [ev] carries the record [r], whose data was [d]: the fixed
    fields, the function field when the call site is known, one field per
    entry of [d] with "session" renamed, and the two dynamic fields. *)
Definition carries_record (env : Env) (r : lager.LogFormat) (d : gmap string Value)
    (ev : libhoney.Event) : Prop :=
  let f := libhoney.data ev in
  f !! "lager_source" = Some (VString (lager.Source r)) /\
  f !! "lager_message" = Some (VString (lager.Message r)) /\
  f !! "lager_log_level_iota" = Some (VLogLevel (lager.Level r)) /\
  f !! "lager_log_level" = Some (VString (logLevelToString (lager.Level r))) /\
  f !! "function" = VString <$> runtime_Caller env 2 /\
  (forall key v, key <> "session" -> d !! key = Some v -> f !! key = Some v) /\
  f !! "lager_session" = d !! "session" /\
  f !! "session" = None /\
  f !! "num_goroutines" = Some (VInt (runtime_NumGoroutine env)) /\
  f !! "memory_allocation" = Some (VUint64 (runtime_MemStats_Alloc env)).

(** [Log] moved the "session" entry, of value [s], of the data of [r]:
    [w] is the world before the call, [w'] the world after it, [ev] the
    event submitted. *)
Definition moves_session (r : lager.LogFormat) (s : Value) (w w' : World)
    (ev : libhoney.Event) : Prop :=
  let d := data_of w (lager.Data r) in
  let d' := data_of w' (lager.Data r) in
  libhoney.data ev !! "lager_session" = Some s /\
  d' !! "session" = None /\
  (forall key, key <> "session" -> d' !! key = d !! key) /\
  (forall key v, key <> "session" -> d !! key = Some v ->
                 libhoney.data ev !! key = Some v).

(** The line [ReadResponses] prints for an outcome with a status code in
    the success range, by the shape of its metadata. *)
Definition metadata_line (r : Response) : Line :=
  match Metadata r with
  | VNil => HoneylagerError MetadataWasNil
  | VMap m => SuccessfullySent (default VNil (m !! metadataKeyID)) (Duration r)
  | other => HoneylagerError (MetadataNotMap other)
  end.

(** The nanosecond count [parseLagerTimestamp] computes from the parsed
    value and its whole seconds: the difference, times 1e9, in float64
    arithmetic, then truncated. *)
Definition timestamp_nanos (timeFloat : GoNum.float64) (seconds : Z) : Z :=
  GoNum.int64_of_float64
    (GoNum.fmul (GoNum.fsub timeFloat (GoNum.float64_of_int64 seconds))
                (GoNum.float64_of_int64 1000000000)).

(** The world once one more line is printed. *)
Definition printed (l : Line) (w : World) : World :=
  {| heap := heap w; sent := sent w; stdout := stdout w ++ [l] |}.

(** ** Vocabulary of the further properties *)

(** The event [Log] builds for a record whose data is [d]. *)
Definition Log_event (env : Env) (sink : Sink) (r : lager.LogFormat)
    (d : gmap string Value) : libhoney.Event :=
  {| libhoney.WriteKey := builder_WriteKey (builder sink);
     libhoney.Dataset := builder_Dataset (builder sink);
     libhoney.Timestamp := match parseLagerTimestamp (lager.Timestamp r) with
                           | inl t => t
                           | inr _ => time_Now env
                           end;
     libhoney.Metadata :=
       VMap {[ metadataKeyID := VInt (rand_Intn env GoNum.MaxInt32) ]};
     libhoney.data := Log_fields env sink r d |}.

(** The same for the earlier revision. *)
Definition Legacy_event (env : Env) (sink : Sink) (r : lager.LogFormat)
    (d : gmap string Value) : libhoney.Event :=
  {| libhoney.WriteKey := builder_WriteKey (builder sink);
     libhoney.Dataset := builder_Dataset (builder sink);
     libhoney.Timestamp := match parseLagerTimestamp (lager.Timestamp r) with
                           | inl t => t
                           | inr _ => time_Now env
                           end;
     libhoney.Metadata :=
       VMap {[ metadataKeyID := VInt (rand_Intn env GoNum.MaxInt32) ]};
     libhoney.data := Legacy_fields env sink r d |}.


(** The world once [ev] has gone through [Send] and the store has become
    [h]: the transport's error, if any, is printed. *)
Definition after_Send (env : Env) (ev : libhoney.Event)
    (h : gmap loc (gmap string Value)) (w : World) : World :=
  {| heap := h;
     sent := sent w ++ [ev];
     stdout := stdout w ++ match transport_Send env ev with
                           | Some e => [HoneylagerError e]
                           | None => []
                           end |}.

(** The store once "session" is deleted from the map behind [r]. *)
Definition without_session (r : MapRef) (h : gmap loc (gmap string Value)) :
    gmap loc (gmap string Value) :=
  match r with
  | Some l => alter (delete "session") l h
  | None => h
  end.

(** A caller that logs records one after the other on one sink, each call
    with what the process gives it at that moment; this is what the loop of
    examples/main.go amounts to for the sink. *)
Fixpoint Log_all (sink : Sink) (calls : list (Env * lager.LogFormat)) : M unit :=
  match calls with
  | [] => ret tt
  | c :: rest => let* _ := Log (fst c) sink (snd c) in Log_all sink rest
  end.

(** The records of [calls] that pass the filter of [sink]. *)
Definition passing (sink : Sink) (calls : list (Env * lager.LogFormat)) :
    list (Env * lager.LogFormat) :=
  filter (fun c => minLogLevel sink <= lager.Level (snd c)) calls.

(** ** Sample inputs *)

Definition sample_env : Env :=
  {| time_Now := {| time.sec := 1700000000; time.nsec := 5 |};
     runtime_NumGoroutine := 4;
     runtime_MemStats_Alloc := 4096;
     runtime_Caller := fun skip => if skip =? 2 then Some "main.main" else None;
     rand_Intn := fun n => 7 mod n;
     transport_Send := fun _ => None |}.

Definition sample_sink : Sink := NewSink "write-key" "dataset" lager.INFO.

Definition sample_record (level : lager.LogLevel) (ts : string) : lager.LogFormat :=
  {| lager.Timestamp := ts;
     lager.Source := "my-component";
     lager.Message := "my-component.some-action";
     lager.Level := level;
     lager.Data := Some 1%positive |}.

(** A world in which the caller's map, at address 1, holds [d]. *)
Definition sample_world (d : gmap string Value) : World :=
  {| heap := {[ 1%positive := d ]}; sent := []; stdout := [] |}.

(** The same for the earlier revision. *)
Definition sample_legacy_event (r : lager.LogFormat) (w : World) : libhoney.Event :=
  default (NewEvent sample_env NewBuilder)
          (last (sent (snd (Legacy.Log sample_env sample_sink r w)))).

(** An environment in which the call stack cannot be resolved. *)
Definition quiet_env : Env :=
  {| time_Now := {| time.sec := 1700000000; time.nsec := 5 |};
     runtime_NumGoroutine := 4;
     runtime_MemStats_Alloc := 4096;
     runtime_Caller := fun _ => None;
     rand_Intn := fun n => 7 mod n;
     transport_Send := fun _ => Some (ErrorString "no WriteKey") |}.

Definition plain_data : gmap string Value :=
  {[ "method" := VString "get"; "payload_length" := VInt 55 ]}.

Definition session_data : gmap string Value :=
  {[ "session" := VString "7"; "method" := VString "get" ]}.

(** Data whose keys collide with names the sink writes. *)
Definition spoofing_data : gmap string Value :=
  {[ "lager_source" := VString "spoofed" ]}.

Definition clashing_session_data : gmap string Value :=
  {[ "session" := VString "7"; "lager_session" := VString "other";
     "lager_timestamp_parse_error" := VString "mine" ]}.

(** The event a call of [Log] on the sample sink submits, when it submits
    one. *)
Definition sample_event (r : lager.LogFormat) (w : World) : libhoney.Event :=
  default (NewEvent sample_env NewBuilder)
          (last (sent (snd (Log sample_env sample_sink r w)))).

Definition sample_response (code : Z) (meta : Value) : Response :=
  {| StatusCode := code; Err := None; Body := "body";
     Duration := 1500000; Metadata := meta |}.

(** Rewriting of a lookup through the layers of an event's fields. *)
Ltac lookup_fields :=
  repeat first
    [ rewrite lookup_union
    | rewrite lookup_delete_eq
    | rewrite lookup_delete_ne by done
    | rewrite lookup_insert_eq
    | rewrite lookup_insert_ne by done
    | rewrite lookup_empty
    | match goal with H : _ !! _ = _ |- _ => rewrite H end ];
  simpl.

(** * Properties *)

(** ** Sanity checks of the embedding *)

Example logLevelToString_known :
  logLevelToString lager.DEBUG = "DEBUG" /\ logLevelToString lager.INFO = "INFO" /\
  logLevelToString lager.ERROR = "ERROR" /\ logLevelToString lager.FATAL = "FATAL" /\
  logLevelToString 4 = "UNKNOWN" /\ logLevelToString (-1) = "UNKNOWN".
Proof. repeat split. Qed.

Example ParseFloat_examples :
  strconv.ParseFloat "12.5" = inl (S754_finite false 7036874417766400 (-49)) /\
  strconv.ParseFloat "1e23" = inl (S754_finite false 5960464477539062 24) /\
  strconv.ParseFloat "9007199254740993" = inl (S754_finite false 4503599627370496 1) /\
  strconv.ParseFloat "4.9e-324" = inl (S754_finite false 1 (-1074)) /\
  strconv.ParseFloat "0x1p-2" = inl (S754_finite false 4503599627370496 (-54)) /\
  strconv.ParseFloat "1_0.5" = strconv.ParseFloat "10.5" /\
  strconv.ParseFloat "-Inf" = inl (S754_infinity true) /\
  strconv.ParseFloat "1e400" = inr (strconv.rangeError "ParseFloat" "1e400") /\
  strconv.ParseFloat "not-a-time" = inr (strconv.syntaxError "ParseFloat" "not-a-time") /\
  strconv.ParseFloat EmptyString
    = inr (strconv.syntaxError "ParseFloat" EmptyString).
Proof. vm_compute. repeat split. Qed.

Example Unix_examples :
  time.Unix 12 500000000 = {| time.sec := 12; time.nsec := 500000000 |} /\
  time.Unix 12 1500000000 = {| time.sec := 13; time.nsec := 500000000 |} /\
  time.Unix (-1) (-500000000) = {| time.sec := -2; time.nsec := 500000000 |}.
Proof. vm_compute. repeat split. Qed.

(** ** Helper lemmas *)

Lemma wrap64_id z :
  GoNum.MinInt64 <= z <= GoNum.MaxInt64 -> GoNum.wrap64 z = z.
Proof.
  unfold GoNum.wrap64, GoNum.MinInt64, GoNum.MaxInt64. intros Hz.
  rewrite Z.mod_small; lia.
Qed.

(** Assigning every entry of [m] to [d] yields the union in which [m] has
    precedence. *)
Lemma fold_insert_union (m d : gmap string Value) :
  map_fold (fun key val acc => <[key := val]> acc) d m = m ∪ d.
Proof.
  apply (map_fold_weak_ind (fun acc m' => acc = m' ∪ d)).
  - by rewrite (left_id_L ∅ (∪)).
  - intros key val m' acc _ ->. by rewrite insert_union_l.
Qed.

Lemma Add_data (m : gmap string Value) ev :
  libhoney.data (libhoney.Add m ev) = m ∪ libhoney.data ev.
Proof. apply fold_insert_union. Qed.

Lemma AddDynamic_Timestamp env (l : list (string * (Env -> Value))) ev :
  libhoney.Timestamp
    (fold_left (fun ev d => libhoney.AddField (fst d) (snd d env) ev) l ev)
  = libhoney.Timestamp ev.
Proof.
  revert ev; induction l as [|d l IH]; intros ev; simpl; [done|].
  by rewrite IH.
Qed.

Lemma NewEvent_Timestamp env b :
  libhoney.Timestamp (NewEvent env b) = time_Now env.
Proof. unfold NewEvent. by rewrite AddDynamic_Timestamp. Qed.

Lemma NewSink_NewEvent_data env k ds lvl :
  libhoney.data (NewEvent env (builder (NewSink k ds lvl))) =
  <["memory_allocation" := VUint64 (runtime_MemStats_Alloc env)]>
    (<["num_goroutines" := VInt (runtime_NumGoroutine env)]> ∅).
Proof. reflexivity. Qed.


Lemma Log_filtered env sink r w :
  lager.Level r < minLogLevel sink -> Log env sink r w = (tt, w).
Proof.
  intros H. unfold Log.
  by replace (lager.Level r <? minLogLevel sink) with true
    by (symmetry; apply Z.ltb_lt; lia).
Qed.

Lemma Legacy_filtered env sink r w :
  lager.Level r < minLogLevel sink -> Legacy.Log env sink r w = (tt, w).
Proof.
  intros H. unfold Legacy.Log.
  by replace (lager.Level r <? minLogLevel sink) with true
    by (symmetry; apply Z.ltb_lt; lia).
Qed.

(** What a call of [Log] that passes the filter does to the world: one
    event more, the "session" entry gone from the record's map, and a line
    printed exactly when the transport refuses the event. *)
Lemma Log_effect env sink r w :
  minLogLevel sink <= lager.Level r ->
  exists ev,
    sent (snd (Log env sink r w)) = sent w ++ [ev]
    /\ heap (snd (Log env sink r w)) =
         match lager.Data r with
         | Some l => alter (delete "session") l (heap w)
         | None => heap w
         end
    /\ stdout (snd (Log env sink r w)) =
         stdout w ++ match transport_Send env ev with
                     | Some e => [HoneylagerError e]
                     | None => []
                     end
    /\ libhoney.data ev = Log_fields env sink r (data_of w (lager.Data r))
    /\ libhoney.Metadata ev =
         VMap {[ metadataKeyID := VInt (rand_Intn env GoNum.MaxInt32) ]}
    /\ libhoney.Timestamp ev = match parseLagerTimestamp (lager.Timestamp r) with
                               | inl t => t
                               | inr _ => time_Now env
                               end.
Proof.
  intros Hlvl. unfold Log.
  replace (lager.Level r <? minLogLevel sink) with false
    by (symmetry; apply Z.ltb_ge; lia).
  unfold Log_fields, lager_fields, parse_error_of, opt_insert, data_of, bind,
    map_index, map_entries, map_delete, ret, Send, printError, Printf.
  simpl.
  destruct (lager.Data r) as [l|]; simpl;
    [destruct (heap w !! l) as [d|] eqn:Hd; simpl;
       [destruct (d !! "session") as [s|] eqn:Hs; simpl;
          rewrite ?lookup_alter_eq, ?Hd; simpl|]|].
  all: rewrite ?Hd; simpl; rewrite ?lookup_empty; simpl.
  all: destruct (parseLagerTimestamp (lager.Timestamp r)) as [t|e]; simpl.
  all: destruct (transport_Send _ _) eqn:Hsend; simpl.
  all: eexists; split; [reflexivity|]; rewrite Hsend.
  all: rewrite ?app_nil_r.
  all: destruct (runtime_Caller env 2); simpl.
  all: rewrite ?Hd; simpl; rewrite ?delete_empty, ?(delete_id _ _ Hs).
  all: repeat split; try reflexivity; try apply fold_insert_union;
       try (f_equal; apply fold_insert_union); try apply NewEvent_Timestamp.
  all: symmetry; apply alter_id; intros x Hx; rewrite Hd in Hx;
       inversion Hx; subst; by apply delete_id.
Qed.

(** The same for the earlier revision, which leaves the store alone. *)
Lemma Legacy_effect env sink r w :
  minLogLevel sink <= lager.Level r ->
  exists ev,
    sent (snd (Legacy.Log env sink r w)) = sent w ++ [ev]
    /\ heap (snd (Legacy.Log env sink r w)) = heap w
    /\ stdout (snd (Legacy.Log env sink r w)) =
         stdout w ++ match transport_Send env ev with
                     | Some e => [HoneylagerError e]
                     | None => []
                     end
    /\ libhoney.data ev = Legacy_fields env sink r (data_of w (lager.Data r))
    /\ libhoney.Metadata ev =
         VMap {[ metadataKeyID := VInt (rand_Intn env GoNum.MaxInt32) ]}
    /\ libhoney.Timestamp ev = match parseLagerTimestamp (lager.Timestamp r) with
                               | inl t => t
                               | inr _ => time_Now env
                               end.
Proof.
  intros Hlvl. unfold Legacy.Log.
  replace (lager.Level r <? minLogLevel sink) with false
    by (symmetry; apply Z.ltb_ge; lia).
  unfold Legacy_fields, lager_fields, parse_error_of, opt_insert, data_of, bind,
    map_entries, ret, Send, printError, Printf.
  simpl.
  destruct (parseLagerTimestamp (lager.Timestamp r)) as [t|e]; simpl.
  all: destruct (transport_Send _ _) eqn:Hsend; simpl.
  all: eexists; split; [reflexivity|]; rewrite Hsend.
  all: rewrite ?app_nil_r; simpl.
  all: repeat split; try reflexivity; try apply fold_insert_union;
       try (f_equal; apply fold_insert_union); try apply NewEvent_Timestamp.
Qed.

(** Reading the record's map after the call. *)
Lemma data_of_after_delete w w' r :
  heap w' = match r with
            | Some l => alter (delete "session") l (heap w)
            | None => heap w
            end ->
  data_of w' r = delete "session" (data_of w r).
Proof.
  unfold data_of, map_entries; simpl. intros ->. destruct r as [l|]; simpl.
  - rewrite lookup_alter_eq. destruct (heap w !! l); simpl; [done|].
    by rewrite delete_empty.
  - by rewrite delete_empty.
Qed.

Lemma not_sink_field key :
  key ∉ sink_field_names ->
  key <> "lager_source" /\ key <> "lager_message" /\
  key <> "lager_log_level_iota" /\ key <> "lager_log_level" /\
  key <> "function" /\ key <> "lager_session" /\
  key <> "num_goroutines" /\ key <> "memory_allocation" /\
  key <> "lager_timestamp_parse_error".
Proof.
  intros Hn. repeat split; intros ->; apply Hn; unfold sink_field_names; set_solver.
Qed.

(** Every field of the event is one the sink writes or an entry of the
    data. *)
Lemma Log_fields_dom env k ds lvl r d key :
  is_Some (Log_fields env (NewSink k ds lvl) r d !! key) ->
  key ∈ sink_field_names \/ (key <> "session" /\ is_Some (d !! key)).
Proof.
  intros Hsome.
  destruct (decide (key ∈ sink_field_names)) as [|Hn]; [by left|right].
  destruct (not_sink_field key Hn) as (N1 & N2 & N3 & N4 & N5 & N6 & N7 & N8 & N9).
  revert Hsome. unfold Log_fields, lager_fields, opt_insert.
  rewrite NewSink_NewEvent_data.
  destruct (parse_error_of _), (d !! "session"), (runtime_Caller env 2); simpl.
  all: rewrite ?lookup_insert_ne by done.
  all: rewrite lookup_union.
  all: rewrite ?lookup_insert_ne by done.
  all: rewrite lookup_empty.
  all: destruct (decide (key = "session")) as [->|Hk];
       [rewrite lookup_delete_eq; simpl; by intros [? ?]|].
  all: rewrite lookup_delete_ne by done.
  all: destruct (d !! key); simpl; [by eauto|by intros [? ?]].
Qed.

(** An event list grows by one element in one way only. *)
Lemma submits_unique (run : M unit) w ev ev' :
  submits run w ev -> submits run w ev' -> ev = ev'.
Proof.
  unfold submits. intros -> H. apply app_inv_head in H. by inversion H.
Qed.

Lemma filtered_submits_nothing env sink r w ev :
  lager.Level r < minLogLevel sink -> ~ submits (Log env sink r) w ev.
Proof.
  intros Hlt. unfold submits. rewrite Log_filtered by done. simpl.
  intros H. apply (f_equal length) in H. rewrite length_app in H. simpl in H. lia.
Qed.

Lemma AddDynamic_config env (l : list (string * (Env -> Value))) ev :
  libhoney.WriteKey
    (fold_left (fun ev d => libhoney.AddField (fst d) (snd d env) ev) l ev)
  = libhoney.WriteKey ev /\
  libhoney.Dataset
    (fold_left (fun ev d => libhoney.AddField (fst d) (snd d env) ev) l ev)
  = libhoney.Dataset ev.
Proof.
  revert ev; induction l as [|d l IH]; intros ev; simpl; [done|].
  destruct (IH (libhoney.AddField (fst d) (snd d env) ev)) as [-> ->]. done.
Qed.

Lemma Event_eq (e1 e2 : libhoney.Event) :
  libhoney.WriteKey e1 = libhoney.WriteKey e2 ->
  libhoney.Dataset e1 = libhoney.Dataset e2 ->
  libhoney.Timestamp e1 = libhoney.Timestamp e2 ->
  libhoney.Metadata e1 = libhoney.Metadata e2 ->
  libhoney.data e1 = libhoney.data e2 ->
  e1 = e2.
Proof. destruct e1, e2; simpl; by intros -> -> -> -> ->. Qed.

Lemma World_eq (w1 w2 : World) :
  heap w1 = heap w2 -> sent w1 = sent w2 -> stdout w1 = stdout w2 -> w1 = w2.
Proof. destruct w1, w2; simpl; by intros -> -> ->. Qed.

Lemma Log_config env sink r w ev :
  submits (Log env sink r) w ev ->
  libhoney.WriteKey ev = builder_WriteKey (builder sink) /\
  libhoney.Dataset ev = builder_Dataset (builder sink).
Proof.
  intros Hs.
  destruct (Z.lt_ge_cases (lager.Level r) (minLogLevel sink)) as [Hlt|Hge].
  { by destruct (filtered_submits_nothing env sink r w ev Hlt). }
  revert Hs. unfold submits, Log.
  replace (lager.Level r <? minLogLevel sink) with false
    by (symmetry; apply Z.ltb_ge; lia).
  unfold bind, map_index, map_entries, map_delete, ret, Send, printError, Printf.
  simpl.
  destruct (lager.Data r) as [l|]; simpl;
    destruct (_ !! "session"); simpl;
    destruct (transport_Send _ _); simpl;
    intros H; apply app_inv_head in H; injection H as <-;
    destruct (parseLagerTimestamp _); destruct (runtime_Caller env 2); simpl;
    unfold NewEvent; apply AddDynamic_config.
Qed.

Lemma Legacy_config env sink r w ev :
  submits (Legacy.Log env sink r) w ev ->
  libhoney.WriteKey ev = builder_WriteKey (builder sink) /\
  libhoney.Dataset ev = builder_Dataset (builder sink).
Proof.
  intros Hs.
  destruct (Z.lt_ge_cases (lager.Level r) (minLogLevel sink)) as [Hlt|Hge].
  { exfalso. revert Hs. unfold submits. rewrite Legacy_filtered by done. simpl.
    intros H. apply (f_equal length) in H. rewrite length_app in H. simpl in H. lia. }
  revert Hs. unfold submits, Legacy.Log.
  replace (lager.Level r <? minLogLevel sink) with false
    by (symmetry; apply Z.ltb_ge; lia).
  unfold bind, map_entries, ret, Send, printError, Printf. simpl.
  destruct (transport_Send _ _); simpl;
    intros H; apply app_inv_head in H; injection H as <-;
    destruct (parseLagerTimestamp _); simpl;
    unfold NewEvent; apply AddDynamic_config.
Qed.

(** What [Log] does with a record that passes the filter, in one
    equation. *)
Lemma Log_passes env sink r w :
  minLogLevel sink <= lager.Level r ->
  Log env sink r w =
    (tt, after_Send env (Log_event env sink r (data_of w (lager.Data r)))
           (without_session (lager.Data r) (heap w)) w).
Proof.
  intros Hge.
  destruct (Log_effect env sink r w Hge) as (ev & Hs & Hh & Ho & Hd & Hm & Ht).
  destruct (Log_config env sink r w ev Hs) as [Hk Hds].
  assert (Hev : ev = Log_event env sink r (data_of w (lager.Data r)))
    by (by apply Event_eq).
  subst ev. destruct (Log env sink r w) as [[] w'] eqn:HL. simpl in *.
  f_equal. by apply World_eq.
Qed.

Lemma Legacy_passes env sink r w :
  minLogLevel sink <= lager.Level r ->
  Legacy.Log env sink r w =
    (tt, after_Send env (Legacy_event env sink r (data_of w (lager.Data r)))
           (heap w) w).
Proof.
  intros Hge.
  destruct (Legacy_effect env sink r w Hge) as (ev & Hs & Hh & Ho & Hd & Hm & Ht).
  destruct (Legacy_config env sink r w ev Hs) as [Hk Hds].
  assert (Hev : ev = Legacy_event env sink r (data_of w (lager.Data r)))
    by (by apply Event_eq).
  subst ev. destruct (Legacy.Log env sink r w) as [[] w'] eqn:HL. simpl in *.
  f_equal. by apply World_eq.
Qed.

(** ** C2: records below the minimum level *)

(** C2. For every record whose level is below the sink's minimum level,
    [Log] returns at once and the world after the call is the world before
    it: no event was submitted, nothing was printed, and the caller's data
    is unchanged. *)
Theorem Log_below_minimum_level_does_nothing env sink r w :
  lager.Level r < minLogLevel sink ->
  Log env sink r w = (tt, w) /\
  sent (snd (Log env sink r w)) = sent w /\
  data_of (snd (Log env sink r w)) (lager.Data r) = data_of w (lager.Data r).
Proof.
  intros Hlt. rewrite Log_filtered by done. by repeat split.
Qed.

Lemma Log_below_minimum_level_witness :
  lager.Level (sample_record lager.DEBUG "1504804895.094333887")
    < minLogLevel sample_sink /\
  Log sample_env sample_sink (sample_record lager.DEBUG "1504804895.094333887")
      (sample_world session_data) = (tt, sample_world session_data).
Proof.
  split; [reflexivity|].
  apply (Log_below_minimum_level_does_nothing sample_env sample_sink
           (sample_record lager.DEBUG "1504804895.094333887")
           (sample_world session_data)).
  reflexivity.
Defined.

(** ** C10: the store without a "session" entry *)

(** C10. For every record whose data has no "session" entry, the store of
    the caller's maps is the same after [Log] as before, in the current
    revision and in the earlier one; and in any world whatever, [Log]
    either leaves the store as it is or deletes "session" from the record's
    own map, nothing else. *)
Theorem Log_without_session_leaves_data_unchanged env sink r w :
  data_of w (lager.Data r) !! "session" = None ->
  heap (snd (Log env sink r w)) = heap w /\
  heap (snd (Legacy.Log env sink r w)) = heap w /\
  (forall w2,
     heap (snd (Log env sink r w2)) = heap w2 \/
     exists l, lager.Data r = Some l /\
               heap (snd (Log env sink r w2)) = alter (delete "session") l (heap w2)).
Proof.
  intros Hno.
  destruct (Z.lt_ge_cases (lager.Level r) (minLogLevel sink)) as [Hlt|Hge].
  - rewrite Log_filtered, Legacy_filtered by done. repeat split.
    intros w2. left. by rewrite Log_filtered.
  - destruct (Log_effect env sink r w Hge) as (ev & _ & Hheap & _).
    destruct (Legacy_effect env sink r w Hge) as (ev' & _ & Hheap' & _).
    repeat split; [|done|].
    + rewrite Hheap. unfold data_of, map_entries in Hno. simpl in Hno.
      destruct (lager.Data r) as [l|]; [|done].
      apply alter_id. intros x Hx. rewrite Hx in Hno. by apply delete_id.
    + intros w2. destruct (Log_effect env sink r w2 Hge) as (ev2 & _ & Hheap2 & _).
      rewrite Hheap2. destruct (lager.Data r) as [l|]; [right; by exists l|by left].
Qed.

Lemma Log_without_session_witness :
  data_of (sample_world plain_data)
          (lager.Data (sample_record lager.ERROR "1504804895.094333887"))
    !! "session" = None /\
  heap (snd (Log sample_env sample_sink
               (sample_record lager.ERROR "1504804895.094333887")
               (sample_world plain_data)))
  = heap (sample_world plain_data).
Proof.
  split; [vm_compute; reflexivity|].
  apply (Log_without_session_leaves_data_unchanged sample_env sample_sink
           (sample_record lager.ERROR "1504804895.094333887")
           (sample_world plain_data)).
  vm_compute; reflexivity.
Defined.

Lemma ParseFloat_ok_no_parse_error ts f :
  strconv.ParseFloat ts = inl f -> parse_error_of ts = None.
Proof. intros H. unfold parse_error_of, parseLagerTimestamp. by rewrite H. Qed.

(** ** C1: the event of a record that passes the filter *)

(** C1, as amended.  For every record whose level is at least the minimum
    level, one call of [Log] on a sink made by [NewSink] submits exactly one
    event, and prints a line exactly when the transport refuses it.  When
    the data of the record uses none of the names the sink writes by
    itself, that event carries the four fixed lager fields, the function
    field when the call site is known, one field per entry of the data with
    "session" renamed to "lager_session", and the two dynamic fields; it has
    no field besides these and, for a timestamp that does not parse, the
    parse error. *)
Theorem Log_submits_one_event_carrying_the_record env k ds lvl r w :
  lvl <= lager.Level r ->
  exists ev,
    submits (Log env (NewSink k ds lvl) r) w ev /\
    stdout (snd (Log env (NewSink k ds lvl) r w)) =
      stdout w ++ match transport_Send env ev with
                  | Some e => [HoneylagerError e]
                  | None => []
                  end /\
    (forall key, is_Some (libhoney.data ev !! key) ->
       key ∈ sink_field_names \/
       (key <> "session" /\ is_Some (data_of w (lager.Data r) !! key))) /\
    ((forall key, key ∈ sink_field_names -> data_of w (lager.Data r) !! key = None) ->
     carries_record env r (data_of w (lager.Data r)) ev).
Proof.
  intros Hlvl.
  destruct (Log_effect env (NewSink k ds lvl) r w Hlvl)
    as (ev & Hsent & _ & Hout & Hdata & _).
  exists ev. split; [exact Hsent|]. split; [exact Hout|].
  split; [intros key; rewrite Hdata; apply Log_fields_dom|].
  intros Hfree.
  unfold carries_record. rewrite Hdata. clear Hdata Hsent Hout.
  set (d := data_of w (lager.Data r)) in *.
  unfold Log_fields, lager_fields. rewrite NewSink_NewEvent_data.
  assert (H1 := Hfree "lager_source" ltac:(set_solver)).
  assert (H2 := Hfree "lager_message" ltac:(set_solver)).
  assert (H3 := Hfree "lager_log_level_iota" ltac:(set_solver)).
  assert (H4 := Hfree "lager_log_level" ltac:(set_solver)).
  assert (H5 := Hfree "function" ltac:(set_solver)).
  assert (H6 := Hfree "lager_session" ltac:(set_solver)).
  assert (H7 := Hfree "num_goroutines" ltac:(set_solver)).
  assert (H8 := Hfree "memory_allocation" ltac:(set_solver)).
  assert (H9 := Hfree "lager_timestamp_parse_error" ltac:(set_solver)).
  unfold opt_insert.
  destruct (parse_error_of (lager.Timestamp r)) as [e|];
    destruct (d !! "session") as [s|] eqn:Hs;
    destruct (runtime_Caller env 2) as [fn|]; simpl.
  all: repeat split.
  all: try (intros key v Hk Hv;
            rewrite ?lookup_insert_ne by congruence;
            apply lookup_union_Some_l; by rewrite lookup_delete_ne).
  all: lookup_fields; try done.
Qed.

Lemma Log_submits_one_event_witness :
  exists ev,
    submits (Log sample_env sample_sink
               (sample_record lager.ERROR "1504804895.094333887"))
            (sample_world session_data) ev /\
    libhoney.data ev !! "lager_session" = Some (VString "7") /\
    libhoney.data ev !! "method" = Some (VString "get") /\
    libhoney.data ev !! "lager_log_level" = Some (VString "ERROR").
Proof.
  unfold sample_sink.
  destruct (Log_submits_one_event_carrying_the_record sample_env
              "write-key" "dataset" lager.INFO
              (sample_record lager.ERROR "1504804895.094333887")
              (sample_world session_data))
    as (ev & Hs & _ & _ & Hc).
  - vm_compute. discriminate.
  - exists ev. split; [exact Hs|].
    destruct Hc as (_ & _ & _ & Hl & _ & Hfwd & Hsess & _).
    + intros key Hkey. unfold sink_field_names in Hkey.
      repeat (apply elem_of_cons in Hkey as [->|Hkey]; [vm_compute; reflexivity|]).
      apply elem_of_nil in Hkey. destruct Hkey.
    + repeat split.
      * rewrite Hsess. vm_compute. reflexivity.
      * apply Hfwd; [discriminate|vm_compute; reflexivity].
      * rewrite Hl. vm_compute. reflexivity.
Defined.

(** C1 fails as stated: a data entry named like a fixed field hides it.
    With the data {"lager_source": "spoofed"} the event submitted has
    lager_source = "spoofed", not the record's source. *)
Lemma data_entry_hides_lager_source :
  minLogLevel sample_sink <= lager.Level (sample_record lager.INFO "1504804895.094333887") /\
  ~ exists ev,
      submits (Log sample_env sample_sink
                 (sample_record lager.INFO "1504804895.094333887"))
              (sample_world spoofing_data) ev /\
      carries_record sample_env (sample_record lager.INFO "1504804895.094333887")
        (data_of (sample_world spoofing_data) (Some 1%positive)) ev.
Proof.
  split; [vm_compute; discriminate|].
  intros (ev & Hs & Hsrc & _).
  assert (Hev : submits (Log sample_env sample_sink
                           (sample_record lager.INFO "1504804895.094333887"))
                        (sample_world spoofing_data)
                        (sample_event (sample_record lager.INFO "1504804895.094333887")
                                      (sample_world spoofing_data)))
    by (vm_compute; reflexivity).
  rewrite (submits_unique _ _ _ _ Hs Hev) in Hsrc.
  vm_compute in Hsrc. discriminate Hsrc.
Qed.

(** ** C7: the "session" entry *)

(** C7, as amended.  For every record whose level is at least the minimum
    level and whose data has an entry "session", [Log] submits one event
    and deletes "session" from the caller's own map, where every other
    entry stays.  The value appears on the event under lager_session,
    provided the data has no entry of that name; every other entry is a
    field of the event with the same value, except that an entry named
    lager_timestamp_parse_error gives way to the parse error when the
    timestamp does not parse. *)
Theorem Log_moves_session_entry env sink r w s :
  minLogLevel sink <= lager.Level r ->
  data_of w (lager.Data r) !! "session" = Some s ->
  exists ev,
    submits (Log env sink r) w ev /\
    data_of (snd (Log env sink r w)) (lager.Data r) !! "session" = None /\
    (forall key, key <> "session" ->
       data_of (snd (Log env sink r w)) (lager.Data r) !! key
       = data_of w (lager.Data r) !! key) /\
    (data_of w (lager.Data r) !! "lager_session" = None ->
     libhoney.data ev !! "lager_session" = Some s) /\
    (forall key v,
       key <> "session" ->
       data_of w (lager.Data r) !! key = Some v ->
       (exists f, strconv.ParseFloat (lager.Timestamp r) = inl f) \/
       key <> "lager_timestamp_parse_error" ->
       libhoney.data ev !! key = Some v) /\
    (data_of w (lager.Data r) !! "lager_session" = None ->
     (exists f, strconv.ParseFloat (lager.Timestamp r) = inl f) \/
     data_of w (lager.Data r) !! "lager_timestamp_parse_error" = None ->
     moves_session r s w (snd (Log env sink r w)) ev).
Proof.
  intros Hlvl Hs.
  destruct (Log_effect env sink r w Hlvl) as (ev & Hsent & Hheap & _ & Hdata & _).
  exists ev. split; [exact Hsent|].
  assert (Hgone : data_of (snd (Log env sink r w)) (lager.Data r) !! "session" = None).
  { rewrite (data_of_after_delete _ _ _ Hheap). apply lookup_delete_eq. }
  assert (Hstay : forall key, key <> "session" ->
            data_of (snd (Log env sink r w)) (lager.Data r) !! key
            = data_of w (lager.Data r) !! key).
  { intros key Hkey. rewrite (data_of_after_delete _ _ _ Hheap).
    by rewrite lookup_delete_ne. }
  assert (Hsess : data_of w (lager.Data r) !! "lager_session" = None ->
                  libhoney.data ev !! "lager_session" = Some s).
  { intros Hfree. rewrite Hdata. unfold Log_fields, lager_fields, opt_insert.
    rewrite Hs. destruct (parse_error_of (lager.Timestamp r)); lookup_fields; done. }
  assert (Hfwd : forall key v, key <> "session" ->
            data_of w (lager.Data r) !! key = Some v ->
            (exists f, strconv.ParseFloat (lager.Timestamp r) = inl f) \/
            key <> "lager_timestamp_parse_error" ->
            libhoney.data ev !! key = Some v).
  { intros key v Hkey Hv Hts. rewrite Hdata. unfold Log_fields, opt_insert at 1.
    destruct (parse_error_of (lager.Timestamp r)) eqn:Hpe.
    - rewrite lookup_insert_ne.
      + apply lookup_union_Some_l. by rewrite lookup_delete_ne.
      + destruct Hts as [[f Hf]|Hne]; [|congruence].
        rewrite (ParseFloat_ok_no_parse_error _ _ Hf) in Hpe. discriminate Hpe.
    - apply lookup_union_Some_l. by rewrite lookup_delete_ne. }
  split; [exact Hgone|]. split; [exact Hstay|]. split; [exact Hsess|].
  split; [exact Hfwd|].
  intros Hfree Hts. unfold moves_session.
  split; [exact (Hsess Hfree)|]. split; [exact Hgone|]. split; [exact Hstay|].
  intros key v Hkey Hv. apply (Hfwd key v Hkey Hv).
  destruct Hts as [Hok|Hnone]; [by left|right].
  intros ->. rewrite Hnone in Hv. discriminate Hv.
Qed.

Lemma Log_moves_session_witness :
  exists ev,
    submits (Log sample_env sample_sink
               (sample_record lager.ERROR "not-a-time"))
            (sample_world session_data) ev /\
    libhoney.data ev !! "lager_session" = Some (VString "7") /\
    data_of (snd (Log sample_env sample_sink
                    (sample_record lager.ERROR "not-a-time")
                    (sample_world session_data))) (Some 1%positive)
      !! "session" = None.
Proof.
  destruct (Log_moves_session_entry sample_env sample_sink
              (sample_record lager.ERROR "not-a-time")
              (sample_world session_data) (VString "7"))
    as (ev & Hs & Hgone & _ & Hl & _).
  - vm_compute. discriminate.
  - vm_compute. reflexivity.
  - exists ev. split; [exact Hs|]. split; [|exact Hgone].
    apply Hl. vm_compute. reflexivity.
Defined.

(** C7 fails as stated: with the data {"session": "7", "lager_session":
    "other", "lager_timestamp_parse_error": "mine"} and a timestamp that
    does not parse, the event's lager_session is "other", not the value of
    "session", and its lager_timestamp_parse_error is the parse error, not
    "mine". *)
Lemma session_value_hidden_by_data_entry :
  minLogLevel sample_sink <= lager.Level (sample_record lager.INFO "not-a-time") /\
  data_of (sample_world clashing_session_data) (Some 1%positive) !! "session"
    = Some (VString "7") /\
  libhoney.data (sample_event (sample_record lager.INFO "not-a-time")
                              (sample_world clashing_session_data))
    !! "lager_session" = Some (VString "other") /\
  libhoney.data (sample_event (sample_record lager.INFO "not-a-time")
                              (sample_world clashing_session_data))
    !! "lager_timestamp_parse_error"
    = Some (VNumError (strconv.syntaxError "ParseFloat" "not-a-time")) /\
  ~ exists ev,
      submits (Log sample_env sample_sink (sample_record lager.INFO "not-a-time"))
              (sample_world clashing_session_data) ev /\
      moves_session (sample_record lager.INFO "not-a-time") (VString "7")
        (sample_world clashing_session_data)
        (snd (Log sample_env sample_sink (sample_record lager.INFO "not-a-time")
                (sample_world clashing_session_data))) ev.
Proof.
  split; [vm_compute; discriminate|].
  split; [vm_compute; reflexivity|].
  split; [vm_compute; reflexivity|].
  split; [vm_compute; reflexivity|].
  intros (ev & Hs & Hsess & _).
  assert (Hev : submits (Log sample_env sample_sink
                           (sample_record lager.INFO "not-a-time"))
                        (sample_world clashing_session_data)
                        (sample_event (sample_record lager.INFO "not-a-time")
                                      (sample_world clashing_session_data)))
    by (vm_compute; reflexivity).
  rewrite (submits_unique _ _ _ _ Hs Hev) in Hsess.
  vm_compute in Hsess. discriminate Hsess.
Qed.

(** ** C6: timestamps that do not parse *)




(** ** C3: the correlation token *)

(** The token of an event submitted by [Log]. *)
Lemma Log_token env sink r w ev :
  submits (Log env sink r) w ev ->
  libhoney.Metadata ev =
    VMap {[ metadataKeyID := VInt (rand_Intn env GoNum.MaxInt32) ]}.
Proof.
  intros Hs.
  destruct (Z.lt_ge_cases (lager.Level r) (minLogLevel sink)) as [Hlt|Hge].
  - by destruct (filtered_submits_nothing env sink r w ev Hlt).
  - destruct (Log_effect env sink r w Hge) as (ev' & Hsent & _ & _ & _ & Hmeta & _).
    by rewrite (submits_unique _ _ _ _ Hs Hsent).
Qed.

(** Every value below math.MaxInt32 can be the token. *)
Lemma Log_token_attainable t sink r w :
  0 <= t < GoNum.MaxInt32 ->
  minLogLevel sink <= lager.Level r ->
  exists env ev,
    rand_Intn_ok env /\ submits (Log env sink r) w ev /\
    libhoney.Metadata ev = VMap {[ metadataKeyID := VInt t ]}.
Proof.
  intros Ht Hlvl.
  set (env := {| time_Now := {| time.sec := 0; time.nsec := 0 |};
                 runtime_NumGoroutine := 1; runtime_MemStats_Alloc := 0;
                 runtime_Caller := fun _ => None;
                 rand_Intn := fun n => t mod n;
                 transport_Send := fun _ => None |}).
  destruct (Log_effect env sink r w Hlvl) as (ev & Hsent & _ & _ & _ & Hmeta & _).
  exists env, ev. split; [|split; [exact Hsent|]].
  - intros n Hn. simpl. by apply Z.mod_pos_bound.
  - rewrite Hmeta. simpl. by rewrite Z.mod_small.
Qed.

(** C3, as amended.  Every event that [Log] submits has as metadata a map
    with the single key "id", whose value is the integer [rand.Intn] drew
    below math.MaxInt32: it lies in the half-open range from 0 to 2^31 - 1,
    so that 2^31 - 1 itself is never the token. *)
Theorem Log_token_in_metadata env sink r w ev :
  rand_Intn_ok env ->
  submits (Log env sink r) w ev ->
  exists t,
    libhoney.Metadata ev = VMap {[ "id" := VInt t ]} /\
    t = rand_Intn env GoNum.MaxInt32 /\
    0 <= t < 2 ^ 31 - 1.
Proof.
  intros Hok Hs. exists (rand_Intn env GoNum.MaxInt32).
  split; [exact (Log_token env sink r w ev Hs)|].
  split; [reflexivity|].
  apply (Hok GoNum.MaxInt32). reflexivity.
Qed.

Lemma sample_env_rand_ok : rand_Intn_ok sample_env.
Proof. intros n Hn. simpl. by apply Z.mod_pos_bound. Defined.

Lemma Log_token_in_metadata_witness :
  exists t,
    libhoney.Metadata
      (sample_event (sample_record lager.ERROR "1504804895.094333887")
                    (sample_world plain_data))
      = VMap {[ "id" := VInt t ]} /\
    0 <= t < 2 ^ 31 - 1.
Proof.
  destruct (Log_token_in_metadata sample_env sample_sink
              (sample_record lager.ERROR "1504804895.094333887")
              (sample_world plain_data)
              (sample_event (sample_record lager.ERROR "1504804895.094333887")
                            (sample_world plain_data)))
    as (t & Hm & _ & Ht).
  - exact sample_env_rand_ok.
  - vm_compute. reflexivity.
  - exists t. split; [exact Hm|exact Ht].
Defined.

(** C3 fails as stated: 2^31 - 1 lies in the range from 0 to 2^31, yet no
    event submitted by [Log] has it as token, whatever [rand.Intn] draws
    within its contract. *)
Lemma token_is_never_MaxInt32 :
  0 <= 2147483647 < 2 ^ 31 /\
  forall env sink r w ev,
    rand_Intn_ok env ->
    submits (Log env sink r) w ev ->
    libhoney.Metadata ev <> VMap {[ "id" := VInt 2147483647 ]}.
Proof.
  split; [lia|].
  intros env sink r w ev Hok Hs Hmeta.
  rewrite (Log_token env sink r w ev Hs) in Hmeta.
  assert (Hid : ({[ metadataKeyID := VInt (rand_Intn env GoNum.MaxInt32) ]}
                   : gmap string Value) !! "id"
                = ({[ "id" := VInt 2147483647 ]} : gmap string Value) !! "id")
    by congruence.
  unfold metadataKeyID in Hid. rewrite !lookup_singleton_eq in Hid.
  assert (Hlt := Hok GoNum.MaxInt32 eq_refl).
  assert (rand_Intn env GoNum.MaxInt32 = 2147483647) by congruence.
  unfold GoNum.MaxInt32 in *. lia.
Qed.

(** ** C9: the two revisions of the sink *)

Lemma lager_fields_lookup r (m1 m2 : gmap string Value) key :
  m1 !! key = m2 !! key -> lager_fields r m1 !! key = lager_fields r m2 !! key.
Proof.
  intros H. unfold lager_fields. rewrite !lookup_insert.
  repeat case_decide; done.
Qed.

(** Outside the names function, session and lager_session, the fields of
    the two revisions are the same. *)
Lemma Log_fields_Legacy_fields env sink r d key :
  key <> "function" -> key <> "session" -> key <> "lager_session" ->
  Log_fields env sink r d !! key = Legacy_fields env sink r d !! key.
Proof.
  intros Hf Hs Hl. unfold Log_fields, Legacy_fields.
  assert (Hin : (delete "session" d ∪
                 opt_insert "lager_session" (d !! "session")
                   (lager_fields r
                      (opt_insert "function" (VString <$> runtime_Caller env 2)
                         (libhoney.data (NewEvent env (builder sink)))))) !! key
                = (d ∪ lager_fields r (libhoney.data (NewEvent env (builder sink)))) !! key).
  { rewrite !lookup_union, lookup_delete_ne by done. f_equal.
    unfold opt_insert.
    destruct (d !! "session"); rewrite ?lookup_insert_ne by done;
      apply lager_fields_lookup;
      destruct (runtime_Caller env 2); simpl; by rewrite ?lookup_insert_ne. }
  unfold opt_insert at 1 4. destruct (parse_error_of (lager.Timestamp r)); [|done].
  rewrite !lookup_insert. by case_decide.
Qed.

Lemma without_session_id r (h : gmap loc (gmap string Value)) s o :
  data_of {| heap := h; sent := s; stdout := o |} r !! "session" = None <->
  without_session r h = h.
Proof.
  unfold data_of, map_entries, without_session; simpl.
  destruct r as [l|]; [|by rewrite lookup_empty].
  destruct (h !! l) as [m|] eqn:Hm; simpl.
  - split.
    + intros Hno. apply alter_id. intros x Hx. rewrite Hm in Hx.
      injection Hx as <-. by apply delete_id.
    + intros Heq. apply (f_equal (fun h' => h' !! l)) in Heq.
      rewrite lookup_alter_eq, Hm in Heq. simpl in Heq. injection Heq as Heq.
      rewrite <- Heq. apply lookup_delete_eq.
  - rewrite lookup_empty. split; [|done]. intros _.
    apply alter_id. intros x Hx. rewrite Hm in Hx. discriminate Hx.
Qed.

Lemma data_of_world w r :
  data_of {| heap := heap w; sent := sent w; stdout := stdout w |} r = data_of w r.
Proof. reflexivity. Qed.

(** Without a "session" entry, and with a call site that is unknown or a
    data entry "function" that hides it, the two revisions write the same
    fields. *)
Lemma Log_fields_eq_Legacy_fields env sink r (d : gmap string Value) :
  d !! "session" = None ->
  runtime_Caller env 2 = None \/ is_Some (d !! "function") ->
  Log_fields env sink r d = Legacy_fields env sink r d.
Proof.
  intros Hno Hfn. unfold Log_fields, Legacy_fields.
  rewrite Hno, (delete_id _ _ Hno). simpl. f_equal.
  destruct Hfn as [-> | [v Hv]]; [done|].
  apply map_eq. intros key. rewrite !lookup_union.
  destruct (decide (key = "function")) as [->|Hkey].
  - rewrite Hv.
    by destruct (lager_fields r _ !! "function"), (lager_fields r _ !! "function").
  - f_equal. apply lager_fields_lookup.
    destruct (runtime_Caller env 2); simpl; by rewrite ?lookup_insert_ne.
Qed.

(** On a sink made by [NewSink], a known call site that no data entry
    hides shows on the event of the current revision only. *)
Lemma function_field_differs env k ds lvl r (d : gmap string Value) fn :
  runtime_Caller env 2 = Some fn ->
  d !! "function" = None ->
  d !! "session" = None ->
  Log_fields env (NewSink k ds lvl) r d !! "function" = Some (VString fn) /\
  Legacy_fields env (NewSink k ds lvl) r d !! "function" = None.
Proof.
  intros Hfn Hd Hno. unfold Log_fields, Legacy_fields, lager_fields, opt_insert.
  rewrite NewSink_NewEvent_data, Hfn, Hno. simpl.
  destruct (parse_error_of (lager.Timestamp r)); split.
  all: rewrite ?lookup_insert_ne by done.
  all: rewrite lookup_union_r by (by rewrite ?lookup_delete_ne).
  all: rewrite ?lookup_insert_ne by done.
  all: by rewrite ?lookup_insert_eq, ?lookup_empty.
Qed.

(** When the two revisions do the same on a sink made by [NewSink]. *)
Lemma Log_eq_Legacy_iff env k ds lvl r w :
  Log env (NewSink k ds lvl) r w = Legacy.Log env (NewSink k ds lvl) r w <->
  lager.Level r < lvl \/
  (data_of w (lager.Data r) !! "session" = None /\
   (runtime_Caller env 2 = None \/
    is_Some (data_of w (lager.Data r) !! "function"))).
Proof.
  destruct (Z.lt_ge_cases (lager.Level r) lvl) as [Hlt|Hge].
  { split; [by left|]. intros _. by rewrite Log_filtered, Legacy_filtered. }
  rewrite Log_passes, Legacy_passes by done. split.
  - intros Heq. right. injection Heq as Hheap Hsent Hout.
    apply app_inv_head in Hsent. injection Hsent as Hfields.
    assert (Hno : data_of w (lager.Data r) !! "session" = None).
    { rewrite <- data_of_world. by apply without_session_id. }
    split; [exact Hno|].
    destruct (runtime_Caller env 2) as [fn|] eqn:Hfn; [|by left].
    destruct (data_of w (lager.Data r) !! "function") as [v|] eqn:Hd;
      [right; by eexists|].
    exfalso.
    destruct (function_field_differs env k ds lvl r _ fn Hfn Hd Hno) as [H1 H2].
    rewrite Hfields, H2 in H1. discriminate H1.
  - intros [Hlt|[Hno Hfn]]; [lia|].
    assert (Hheap : without_session (lager.Data r) (heap w) = heap w).
    { apply (without_session_id _ _ (sent w) (stdout w)). by rewrite data_of_world. }
    unfold Log_event, Legacy_event.
    by rewrite Hheap, (Log_fields_eq_Legacy_fields _ _ _ _ Hno Hfn).
Qed.

(** C9, as amended.  The two revisions take the same filtering decision;
    for a record that passes, each submits exactly one event, with the same
    metadata and the same timestamp, and the fields of the two events agree
    on every name other than function, session and lager_session; when the
    call site cannot be resolved and the data has no "session" entry, the
    two revisions do exactly the same.  On a sink made by [NewSink] they do
    exactly the same in these cases and no others: the record is below the
    minimum level, or its data has no "session" entry and either the call
    site cannot be resolved or the data has an entry "function" of its
    own. *)
Theorem revisions_agree_up_to_function_and_session env sink k ds lvl r w :
  (lager.Level r < minLogLevel sink ->
     Log env sink r w = (tt, w) /\ Legacy.Log env sink r w = (tt, w)) /\
  (minLogLevel sink <= lager.Level r ->
     exists ev ev',
       submits (Log env sink r) w ev /\
       submits (Legacy.Log env sink r) w ev' /\
       libhoney.Metadata ev = libhoney.Metadata ev' /\
       libhoney.Timestamp ev = libhoney.Timestamp ev' /\
       forall key,
         key <> "function" -> key <> "session" -> key <> "lager_session" ->
         libhoney.data ev !! key = libhoney.data ev' !! key) /\
  (runtime_Caller env 2 = None ->
   data_of w (lager.Data r) !! "session" = None ->
   Log env sink r w = Legacy.Log env sink r w) /\
  (Log env (NewSink k ds lvl) r w = Legacy.Log env (NewSink k ds lvl) r w <->
   lager.Level r < lvl \/
   (data_of w (lager.Data r) !! "session" = None /\
    (runtime_Caller env 2 = None \/
     is_Some (data_of w (lager.Data r) !! "function")))).
Proof.
  split; [|split; [|split]].
  - intros Hlt. split; [by apply Log_filtered|by apply Legacy_filtered].
  - intros Hge.
    destruct (Log_effect env sink r w Hge) as (ev & Hs & _ & _ & Hd & Hm & Ht).
    destruct (Legacy_effect env sink r w Hge) as (ev' & Hs' & _ & _ & Hd' & Hm' & Ht').
    exists ev, ev'. repeat split; [done|done|congruence|congruence|].
    intros key Hf Hk Hl. rewrite Hd, Hd'. by apply Log_fields_Legacy_fields.
  - intros Hcaller Hno. unfold Log, Legacy.Log.
    destruct (lager.Level r <? minLogLevel sink); [done|].
    rewrite Hcaller. unfold data_of, map_entries in Hno. simpl in Hno.
    unfold bind, map_index, map_entries, ret. simpl. by rewrite Hno.
  - apply Log_eq_Legacy_iff.
Qed.

Lemma revisions_agree_witness :
  Log quiet_env sample_sink (sample_record lager.ERROR "1504804895.094333887")
      (sample_world plain_data)
  = Legacy.Log quiet_env sample_sink (sample_record lager.ERROR "1504804895.094333887")
      (sample_world plain_data).
Proof.
  destruct (revisions_agree_up_to_function_and_session quiet_env sample_sink
              "write-key" "dataset" lager.INFO
              (sample_record lager.ERROR "1504804895.094333887")
              (sample_world plain_data)) as (_ & _ & Hsame & _).
  apply Hsame.
  - reflexivity.
  - vm_compute. reflexivity.
Defined.

(** C9 fails as stated: on a record with a "session" entry, logged from a
    known call site, the current revision submits an event with the fields
    lager_session and function and without the field session, and deletes
    "session" from the caller's map; the earlier revision submits an event
    with the field session and without the other two, and leaves the map
    alone. *)
Lemma revisions_differ_on_session_and_function :
  exists ev ev',
    submits (Log sample_env sample_sink
               (sample_record lager.ERROR "1504804895.094333887"))
            (sample_world session_data) ev /\
    submits (Legacy.Log sample_env sample_sink
               (sample_record lager.ERROR "1504804895.094333887"))
            (sample_world session_data) ev' /\
    libhoney.data ev !! "session" = None /\
    libhoney.data ev' !! "session" = Some (VString "7") /\
    libhoney.data ev !! "lager_session" = Some (VString "7") /\
    libhoney.data ev' !! "lager_session" = None /\
    libhoney.data ev !! "function" = Some (VString "main.main") /\
    libhoney.data ev' !! "function" = None /\
    libhoney.data ev <> libhoney.data ev' /\
    Log sample_env sample_sink (sample_record lager.ERROR "1504804895.094333887")
        (sample_world session_data)
    <> Legacy.Log sample_env sample_sink
         (sample_record lager.ERROR "1504804895.094333887")
         (sample_world session_data).
Proof.
  exists (sample_event (sample_record lager.ERROR "1504804895.094333887")
                       (sample_world session_data)),
         (sample_legacy_event (sample_record lager.ERROR "1504804895.094333887")
                              (sample_world session_data)).
  repeat split; try (vm_compute; reflexivity).
  - intros H.
    apply (f_equal (fun m : gmap string Value => m !! "session")) in H.
    vm_compute in H. discriminate H.
  - intros H.
    apply (f_equal (fun x : unit * World =>
                      data_of (snd x) (Some 1%positive) !! "session")) in H.
    vm_compute in H. discriminate H.
Qed.

(** ** C4 and C8: the reader of delivery outcomes *)

(** The loop body prints exactly one line for every outcome and touches
    nothing else. *)
Lemma ReadResponses_body_prints_one r w :
  exists l, ReadResponses_body r w = (tt, printed l w).
Proof.
  unfold ReadResponses_body, printError, Printf, printed.
  destruct ((StatusCode r <? 200) || (300 <=? StatusCode r)); [by eexists|].
  destruct (Metadata r); by eexists.
Qed.

Lemma success_range_test r :
  200 <= StatusCode r < 300 ->
  (StatusCode r <? 200) || (300 <=? StatusCode r) = false.
Proof.
  intros [H1 H2]. apply orb_false_iff. split; [apply Z.ltb_ge|apply Z.leb_gt]; lia.
Qed.

Lemma failure_range_test r :
  StatusCode r < 200 \/ 300 <= StatusCode r ->
  (StatusCode r <? 200) || (300 <=? StatusCode r) = true.
Proof.
  intros [H|H]; apply orb_true_iff; [left; apply Z.ltb_lt|right; apply Z.leb_le]; lia.
Qed.

(** C4, as amended.  For every outcome whose status code is in the success
    range, the reader prints exactly one line: the "metadata was nil"
    failure when the metadata is nil; the "not the expected type" failure
    when the metadata is anything but a map with string keys; and for every
    such map a success line that shows the duration and the value stored
    under "id", or nil when the map has no such key. *)
Theorem ReadResponses_classifies_metadata r w :
  200 <= StatusCode r < 300 ->
  ReadResponses_body r w = (tt, printed (metadata_line r) w) /\
  (Metadata r = VNil -> metadata_line r = HoneylagerError MetadataWasNil) /\
  (Metadata r <> VNil -> (forall m, Metadata r <> VMap m) ->
     metadata_line r = HoneylagerError (MetadataNotMap (Metadata r))) /\
  (forall m t, Metadata r = VMap m -> m !! "id" = Some t ->
     metadata_line r = SuccessfullySent t (Duration r)) /\
  (forall m, Metadata r = VMap m -> m !! "id" = None ->
     metadata_line r = SuccessfullySent VNil (Duration r)).
Proof.
  intros Hcode. split.
  - unfold ReadResponses_body. rewrite (success_range_test r Hcode).
    unfold metadata_line, printError, Printf, printed.
    by destruct (Metadata r).
  - unfold metadata_line, metadataKeyID. repeat split.
    + by intros ->.
    + intros Hnil Hmap. destruct (Metadata r) as [| | | | | | | |m]; try done.
      by destruct (Hmap m).
    + intros m t -> Hid. by rewrite Hid.
    + intros m -> Hid. by rewrite Hid.
Qed.

Lemma ReadResponses_classifies_metadata_witness :
  200 <= StatusCode (sample_response 202 (VMap {[ "id" := VInt 42 ]})) < 300 /\
  ReadResponses_body (sample_response 202 (VMap {[ "id" := VInt 42 ]}))
    (sample_world plain_data)
  = (tt, printed (SuccessfullySent (VInt 42) 1500000) (sample_world plain_data)).
Proof.
  split; [simpl; lia|].
  destruct (ReadResponses_classifies_metadata
              (sample_response 202 (VMap {[ "id" := VInt 42 ]}))
              (sample_world plain_data))
    as (Hrun & _ & _ & Hok & _).
  - simpl. lia.
  - rewrite Hrun.
    rewrite (Hok {[ "id" := VInt 42 ]} (VInt 42));
      [reflexivity|reflexivity|vm_compute; reflexivity].
Defined.

(** C4 fails as stated: a map without the key "id" is not reported as
    malformed metadata; the reader prints a success line with nil in the
    place of the token. *)
Lemma metadata_without_id_reported_as_success :
  200 <= StatusCode (sample_response 200 (VMap ∅)) < 300 /\
  (forall m t, Metadata (sample_response 200 (VMap ∅)) = VMap m -> m !! "id" <> Some t) /\
  ReadResponses_body (sample_response 200 (VMap ∅)) (sample_world plain_data)
  = (tt, printed (SuccessfullySent VNil 1500000) (sample_world plain_data)) /\
  ~ exists e,
      ReadResponses_body (sample_response 200 (VMap ∅)) (sample_world plain_data)
      = (tt, printed (HoneylagerError e) (sample_world plain_data)).
Proof.
  split; [simpl; lia|]. split; [|split].
  - intros m t Hm. simpl in Hm. injection Hm as <-. by rewrite lookup_empty.
  - reflexivity.
  - intros (e & He).
    apply (f_equal (fun x : unit * World => last (stdout (snd x)))) in He.
    unfold ReadResponses_body, printError, Printf, printed in He. simpl in He.
    rewrite lookup_empty in He. simpl in He.
    discriminate He.
Qed.

Lemma ReadResponses_run_Returned xs w :
  ReadResponses_run Returned xs w = (Returned, w).
Proof.
  revert w; induction xs as [|x xs IH]; intros w; [done|].
  simpl. unfold bind. destruct x; simpl; apply IH.
Qed.

Lemma ReadResponses_run_cons_Received r xs w :
  ReadResponses_run Ranging (Received r :: xs) w
  = ReadResponses_run Ranging xs (snd (ReadResponses_body r w)).
Proof.
  simpl. unfold bind. by destruct (ReadResponses_body r w) as [[] w'].
Qed.

Lemma ReadResponses_run_cons_Closed xs w :
  ReadResponses_run Ranging (Closed :: xs) w = (Returned, w).
Proof. simpl. unfold bind, ret. apply ReadResponses_run_Returned. Qed.

(** As long as the channel delivers outcomes, the reader stays in its
    loop and prints one line per outcome. *)
Lemma ReadResponses_run_Received rs w :
  fst (ReadResponses_run Ranging (map Received rs) w) = Ranging /\
  length (stdout (snd (ReadResponses_run Ranging (map Received rs) w)))
  = (length (stdout w) + length rs)%nat.
Proof.
  revert w; induction rs as [|r rs IH]; intros w; [simpl; split; [done|lia]|].
  change (map Received (r :: rs)) with (Received r :: map Received rs).
  rewrite ReadResponses_run_cons_Received.
  destruct (ReadResponses_body_prints_one r w) as (l & ->).
  destruct (IH (snd (tt, printed l w))) as [-> ->]. split; [done|].
  simpl. rewrite length_app. simpl. lia.
Qed.

(** The reader has returned exactly when the channel has been closed. *)
Lemma ReadResponses_run_Closed xs w :
  fst (ReadResponses_run Ranging xs w) = Returned <-> Closed ∈ xs.
Proof.
  revert w; induction xs as [|x xs IH]; intros w.
  - simpl. split; [discriminate|]. intros H. by apply elem_of_nil in H.
  - destruct x as [r|].
    + rewrite ReadResponses_run_cons_Received, IH, elem_of_cons.
      split; [by right|]. by intros [?|?].
    + rewrite ReadResponses_run_cons_Closed. simpl.
      split; [intros _; apply elem_of_cons; by left|done].
Qed.

(** C8.  For every outcome whose status code is outside the range from
    200 to 300, the reader prints exactly one failure line, with the status
    code, the error and the body, and stays in its loop.  Whatever outcomes
    the channel delivers, the reader is still in its loop after them and has
    printed one line for each; it returns exactly when the channel is
    closed. *)
Theorem ReadResponses_reports_bad_status_and_goes_on r w :
  StatusCode r < 200 \/ 300 <= StatusCode r ->
  ReadResponses_step Ranging (Received r) w
  = (Ranging, printed (HoneylagerError (BadStatusCode (StatusCode r) (Err r) (Body r))) w) /\
  (forall before after w0,
     fst (ReadResponses_run Ranging (map Received (before ++ r :: after)) w0) = Ranging /\
     length (stdout (snd (ReadResponses_run Ranging
                            (map Received (before ++ r :: after)) w0)))
     = (length (stdout w0) + length before + 1 + length after)%nat) /\
  (forall xs w0, fst (ReadResponses_run Ranging xs w0) = Returned <-> Closed ∈ xs) /\
  (forall rs w0, fst (ReadResponses rs w0) = Returned).
Proof.
  intros Hcode. split; [|split; [|split]].
  - unfold ReadResponses_step, bind, ReadResponses_body.
    by rewrite (failure_range_test r Hcode).
  - intros before after w0.
    destruct (ReadResponses_run_Received (before ++ r :: after) w0) as [-> ->].
    split; [done|]. rewrite length_app. simpl. lia.
  - apply ReadResponses_run_Closed.
  - intros rs w0. apply ReadResponses_run_Closed.
    apply elem_of_app. right. apply elem_of_cons. by left.
Qed.

Lemma ReadResponses_reports_bad_status_witness :
  (StatusCode (sample_response 500 VNil) < 200 \/
   300 <= StatusCode (sample_response 500 VNil)) /\
  stdout (snd (ReadResponses
                 [sample_response 500 VNil;
                  sample_response 202 (VMap {[ "id" := VInt 42 ]})]
                 (sample_world plain_data)))
  = [HoneylagerError (BadStatusCode 500 None "body");
     SuccessfullySent (VInt 42) 1500000] /\
  ReadResponses_step Ranging (Received (sample_response 500 VNil))
    (sample_world plain_data)
  = (Ranging, printed (HoneylagerError (BadStatusCode 500 None "body"))
                (sample_world plain_data)).
Proof.
  split; [right; simpl; lia|]. split; [vm_compute; reflexivity|].
  apply (ReadResponses_reports_bad_status_and_goes_on (sample_response 500 VNil)
           (sample_world plain_data)).
  right. simpl. lia.
Defined.

(** ** C5: the timestamp of the event *)

Lemma int64_of_float64_trunc f z :
  GoNum.trunc_float64 f = Some z ->
  GoNum.MinInt64 <= z <= GoNum.MaxInt64 ->
  GoNum.int64_of_float64 f = z.
Proof.
  intros Hf [H1 H2]. unfold GoNum.int64_of_float64. rewrite Hf.
  apply Z.leb_le in H1, H2. by rewrite H1, H2.
Qed.

Lemma parseLagerTimestamp_Unix ts v seconds :
  strconv.ParseFloat ts = inl v ->
  GoNum.trunc_float64 v = Some seconds ->
  GoNum.MinInt64 <= seconds <= GoNum.MaxInt64 ->
  parseLagerTimestamp ts = inl (time.Unix seconds (timestamp_nanos v seconds)).
Proof.
  intros Hparse Htrunc Hrange. unfold parseLagerTimestamp, timestamp_nanos.
  by rewrite Hparse, (int64_of_float64_trunc v seconds Htrunc Hrange).
Qed.

Lemma Unix_in_range sec nsec :
  0 <= nsec < 1000000000 ->
  time.Unix sec nsec = {| time.sec := sec; time.nsec := nsec |}.
Proof.
  intros [H1 H2]. unfold time.Unix.
  apply Z.ltb_ge in H1. apply Z.leb_gt in H2. by rewrite H1, H2.
Qed.

Lemma Unix_negative sec nsec :
  GoNum.MinInt64 <= sec <= GoNum.MaxInt64 ->
  -1000000000 < nsec < 0 ->
  time.Unix sec nsec =
    {| time.sec := GoNum.wrap64 (sec - 1); time.nsec := nsec + 1000000000 |}.
Proof.
  intros Hsec [H1 H2]. unfold time.Unix.
  assert (Hq : nsec ÷ 1000000000 = 0) by (apply Z.quot_small_iff; lia).
  rewrite Hq, Z.add_0_r, Z.mul_0_l, Z.sub_0_r, (wrap64_id sec Hsec).
  apply Z.ltb_lt in H2. by rewrite H2.
Qed.

Lemma int64_of_float64_range f :
  GoNum.MinInt64 <= GoNum.int64_of_float64 f <= GoNum.MaxInt64.
Proof.
  unfold GoNum.int64_of_float64.
  destruct (GoNum.trunc_float64 f) as [z|]; [|by vm_compute].
  destruct ((GoNum.MinInt64 <=? z) && (z <=? GoNum.MaxInt64)) eqn:Hin;
    [|by vm_compute].
  apply andb_true_iff in Hin as [H1 H2]. apply Z.leb_le in H1, H2. lia.
Qed.

(** [time.Unix] keeps the instant and brings the nanoseconds into the
    range from 0 to 999999999. *)
Lemma Unix_normalises sec nsec :
  GoNum.MinInt64 + 10 ^ 10 <= sec <= GoNum.MaxInt64 - 10 ^ 10 ->
  GoNum.MinInt64 <= nsec <= GoNum.MaxInt64 ->
  0 <= time.nsec (time.Unix sec nsec) < 1000000000 /\
  time.sec (time.Unix sec nsec) * 1000000000 + time.nsec (time.Unix sec nsec)
  = sec * 1000000000 + nsec.
Proof.
  unfold GoNum.MinInt64, GoNum.MaxInt64. intros Hsec Hnsec. unfold time.Unix.
  destruct ((nsec <? 0) || (1000000000 <=? nsec)) eqn:Hout.
  - pose proof (Z.quot_rem' nsec 1000000000) as Hqr.
    pose proof (Z.rem_bound_abs nsec 1000000000 ltac:(lia)) as Hrem.
    set (n := nsec ÷ 1000000000) in *.
    replace (nsec - n * 1000000000) with (Z.rem nsec 1000000000) by lia.
    set (rm := Z.rem nsec 1000000000) in *.
    assert (Hn : - 10 ^ 10 < n < 10 ^ 10) by lia.
    rewrite (wrap64_id (sec + n))
      by (unfold GoNum.MinInt64, GoNum.MaxInt64; lia).
    destruct (rm <? 0) eqn:Hneg; simpl.
    + apply Z.ltb_lt in Hneg.
      rewrite wrap64_id by (unfold GoNum.MinInt64, GoNum.MaxInt64; lia). lia.
    + apply Z.ltb_ge in Hneg. lia.
  - apply orb_false_iff in Hout as [H1 H2].
    apply Z.ltb_ge in H1. apply Z.leb_gt in H2. simpl. lia.
Qed.

(** C5, as amended.  For every timestamp string that [strconv.ParseFloat]
    accepts with a finite value within the range of int64, let [seconds] be
    the value truncated toward zero and [nanos] the truncation of
    (value - seconds) * 1e9 computed in float64 arithmetic.  The resolved
    timestamp is [time.Unix seconds nanos]: when [nanos] lies between 0 and
    999999999 its whole seconds are [seconds] and its nanoseconds are
    [nanos]; when [nanos] is negative, as for a negative value with a
    fraction, [time.Unix] borrows one second, so that its whole seconds
    are [seconds - 1] and its nanoseconds [nanos + 1e9]; in every case it
    is the instant [seconds] s + [nanos] ns, with nanoseconds between 0 and
    999999999.  For the string "1504804895.094333887" the whole seconds
    are 1504804895. *)
Theorem parseLagerTimestamp_components ts v seconds :
  strconv.ParseFloat ts = inl v ->
  GoNum.trunc_float64 v = Some seconds ->
  GoNum.MinInt64 <= seconds <= GoNum.MaxInt64 ->
  (0 <= timestamp_nanos v seconds < 1000000000 ->
   parseLagerTimestamp ts =
     inl {| time.sec := seconds; time.nsec := timestamp_nanos v seconds |}) /\
  (-1000000000 < timestamp_nanos v seconds < 0 ->
   parseLagerTimestamp ts =
     inl {| time.sec := GoNum.wrap64 (seconds - 1);
            time.nsec := timestamp_nanos v seconds + 1000000000 |}) /\
  (GoNum.MinInt64 + 10 ^ 10 <= seconds <= GoNum.MaxInt64 - 10 ^ 10 ->
   exists t, parseLagerTimestamp ts = inl t /\
             0 <= time.nsec t < 1000000000 /\
             time.sec t * 1000000000 + time.nsec t
             = seconds * 1000000000 + timestamp_nanos v seconds) /\
  (exists t, parseLagerTimestamp "1504804895.094333887" = inl t /\
             time.sec t = 1504804895).
Proof.
  intros Hparse Htrunc Hrange.
  rewrite (parseLagerTimestamp_Unix ts v seconds Hparse Htrunc Hrange).
  split; [|split; [|split]].
  - intros Hn. by rewrite Unix_in_range.
  - intros Hn. by rewrite Unix_negative.
  - intros Hmargin. eexists. split; [reflexivity|].
    apply Unix_normalises; [done|]. apply int64_of_float64_range.
  - exists {| time.sec := 1504804895; time.nsec := 94333887 |}.
    split; [vm_compute|]; reflexivity.
Qed.

Lemma parseLagerTimestamp_components_witness :
  strconv.ParseFloat "1504804895.094333887"
    = inl (S754_finite false 6311609190713745 (-22)) /\
  parseLagerTimestamp "1504804895.094333887"
    = inl {| time.sec := 1504804895; time.nsec := 94333887 |}.
Proof.
  split; [vm_compute; reflexivity|].
  destruct (parseLagerTimestamp_components "1504804895.094333887"
              (S754_finite false 6311609190713745 (-22)) 1504804895)
    as (Hpos & _).
  - vm_compute. reflexivity.
  - vm_compute. reflexivity.
  - vm_compute. split; discriminate.
  - rewrite Hpos.
    + vm_compute. reflexivity.
    + vm_compute. split; [discriminate|reflexivity].
Defined.

(** C5 fails as stated: "-1.5" parses to the value -1.5, whose truncation
    toward zero is -1 and whose fraction yields -500000000 nanoseconds, but
    the resolved timestamp has -2 as whole seconds and 500000000 as
    nanoseconds. *)
Lemma negative_fraction_borrows_a_second :
  strconv.ParseFloat "-1.5" = inl (S754_finite true 6755399441055744 (-52)) /\
  GoNum.trunc_float64 (S754_finite true 6755399441055744 (-52)) = Some (-1) /\
  timestamp_nanos (S754_finite true 6755399441055744 (-52)) (-1) = -500000000 /\
  parseLagerTimestamp "-1.5" = inl {| time.sec := -2; time.nsec := 500000000 |} /\
  ~ exists t, parseLagerTimestamp "-1.5" = inl t /\
              time.sec t = -1 /\ time.nsec t = -500000000.
Proof.
  repeat split; try (vm_compute; reflexivity).
  intros (t & Ht & Hsec & _).
  assert (Hv : parseLagerTimestamp "-1.5"
               = inl {| time.sec := -2; time.nsec := 500000000 |})
    by (vm_compute; reflexivity).
  rewrite Hv in Ht. injection Ht as <-. simpl in Hsec. discriminate Hsec.
Qed.

(** * Further properties *)

(** ** Further properties: rendering of levels *)

(** X1.  [logLevelToString] answers "UNKNOWN" exactly for the values
    outside the four levels, and two values with the same rendering are
    equal or both outside the four levels. *)
Theorem logLevelToString_UNKNOWN_iff l :
  (logLevelToString l = "UNKNOWN" <-> l < lager.DEBUG \/ lager.FATAL < l) /\
  (forall l', logLevelToString l = logLevelToString l' ->
     l = l' \/ ((l < lager.DEBUG \/ lager.FATAL < l) /\
                (l' < lager.DEBUG \/ lager.FATAL < l'))).
Proof.
  unfold logLevelToString, lager.DEBUG, lager.INFO, lager.ERROR, lager.FATAL.
  split.
  - destruct (Z.eqb_spec l 0); [split; [discriminate|lia]|].
    destruct (Z.eqb_spec l 1); [split; [discriminate|lia]|].
    destruct (Z.eqb_spec l 2); [split; [discriminate|lia]|].
    destruct (Z.eqb_spec l 3); [split; [discriminate|lia]|].
    split; [lia|done].
  - intros l'.
    destruct (Z.eqb_spec l 0); destruct (Z.eqb_spec l' 0);
      try (intros _; left; lia); try discriminate;
    destruct (Z.eqb_spec l 1); destruct (Z.eqb_spec l' 1);
      try (intros _; left; lia); try discriminate;
    destruct (Z.eqb_spec l 2); destruct (Z.eqb_spec l' 2);
      try (intros _; left; lia); try discriminate;
    destruct (Z.eqb_spec l 3); destruct (Z.eqb_spec l' 3);
      try (intros _; left; lia); try discriminate.
    intros _. right. lia.
Qed.

(** ** Further properties: the configuration of the sink *)

(** X2.  Every event submitted through a sink made by
    [NewSink key dataset level] is addressed with that write key and that
    dataset, in the current revision and in the earlier one. *)
Theorem submitted_event_has_sink_configuration env k ds lvl r w ev :
  submits (Log env (NewSink k ds lvl) r) w ev \/
  submits (Legacy.Log env (NewSink k ds lvl) r) w ev ->
  libhoney.WriteKey ev = k /\ libhoney.Dataset ev = ds.
Proof.
  intros [Hs|Hs].
  - exact (Log_config env (NewSink k ds lvl) r w ev Hs).
  - exact (Legacy_config env (NewSink k ds lvl) r w ev Hs).
Qed.

Lemma submitted_event_has_sink_configuration_witness :
  libhoney.WriteKey (sample_event (sample_record lager.ERROR "1504804895.094333887")
                                  (sample_world plain_data)) = "write-key" /\
  libhoney.Dataset (sample_event (sample_record lager.ERROR "1504804895.094333887")
                                 (sample_world plain_data)) = "dataset".
Proof.
  apply (submitted_event_has_sink_configuration sample_env "write-key" "dataset"
           lager.INFO (sample_record lager.ERROR "1504804895.094333887")
           (sample_world plain_data)).
  left. vm_compute. reflexivity.
Defined.

(** X3.  The minimum level only gates: of two sinks that differ in their
    minimum level alone, the stricter one either does exactly what the
    laxer one does or does nothing; and a record whose level equals the
    minimum level is submitted. *)
Theorem minimum_level_only_gates env k ds lvl lvl' r w :
  lvl <= lvl' ->
  (Log env (NewSink k ds lvl') r w = Log env (NewSink k ds lvl) r w \/
   Log env (NewSink k ds lvl') r w = (tt, w)) /\
  (lager.Level r = lvl' ->
   exists ev, submits (Log env (NewSink k ds lvl') r) w ev /\
              submits (Log env (NewSink k ds lvl) r) w ev).
Proof.
  intros Hle.
  assert (Hsame : lvl' <= lager.Level r ->
            Log env (NewSink k ds lvl') r w = Log env (NewSink k ds lvl) r w).
  { intros Hge. rewrite !Log_passes by (simpl; lia). reflexivity. }
  split.
  - destruct (Z.lt_ge_cases (lager.Level r) lvl') as [Hlt|Hge].
    + right. by apply Log_filtered.
    + left. by apply Hsame.
  - intros Heq.
    destruct (Log_effect env (NewSink k ds lvl') r w ltac:(simpl; lia))
      as (ev & Hs & _).
    exists ev. split; [exact Hs|].
    unfold submits. rewrite <- (Hsame ltac:(lia)). exact Hs.
Qed.

Lemma minimum_level_only_gates_witness :
  Log sample_env (NewSink "write-key" "dataset" lager.ERROR)
      (sample_record lager.INFO "1504804895.094333887") (sample_world plain_data)
  = (tt, sample_world plain_data) /\
  Log sample_env (NewSink "write-key" "dataset" lager.ERROR)
      (sample_record lager.FATAL "1504804895.094333887") (sample_world plain_data)
  = Log sample_env (NewSink "write-key" "dataset" lager.DEBUG)
      (sample_record lager.FATAL "1504804895.094333887") (sample_world plain_data).
Proof.
  split.
  - destruct (minimum_level_only_gates sample_env "write-key" "dataset"
                lager.DEBUG lager.ERROR
                (sample_record lager.INFO "1504804895.094333887")
                (sample_world plain_data)) as [[H|H] _].
    + vm_compute. discriminate.
    + exfalso.
      apply (f_equal (fun x : unit * World => length (sent (snd x)))) in H.
      vm_compute in H. discriminate H.
    + exact H.
  - destruct (minimum_level_only_gates sample_env "write-key" "dataset"
                lager.DEBUG lager.ERROR
                (sample_record lager.FATAL "1504804895.094333887")
                (sample_world plain_data)) as [[H|H] _].
    + vm_compute. discriminate.
    + exact H.
    + exfalso.
      apply (f_equal (fun x : unit * World => length (sent (snd x)))) in H.
      vm_compute in H. discriminate H.
Defined.

Lemma logLevelToString_UNKNOWN_witness :
  logLevelToString 7 = "UNKNOWN" /\ logLevelToString (-1) = "UNKNOWN".
Proof.
  split.
  - apply (logLevelToString_UNKNOWN_iff 7). right. reflexivity.
  - apply (logLevelToString_UNKNOWN_iff (-1)). left. reflexivity.
Defined.

(** ** Further properties: the timestamp step *)

(** X4.  For every record that passes the filter and whose timestamp
    [strconv.ParseFloat] accepts, be it as a number, an infinity or NaN, the
    event's timestamp is the parsed one, whatever the clock says, and the
    sink adds no lager_timestamp_parse_error field: the event has one only
    if the data has, with the data's value. *)
Theorem Log_overrides_timestamp_when_it_parses env k ds lvl r w f :
  lvl <= lager.Level r ->
  strconv.ParseFloat (lager.Timestamp r) = inl f ->
  exists ev t,
    submits (Log env (NewSink k ds lvl) r) w ev /\
    parseLagerTimestamp (lager.Timestamp r) = inl t /\
    libhoney.Timestamp ev = t /\
    libhoney.data ev !! "lager_timestamp_parse_error"
    = data_of w (lager.Data r) !! "lager_timestamp_parse_error".
Proof.
  intros Hlvl Hf.
  destruct (Log_effect env (NewSink k ds lvl) r w Hlvl)
    as (ev & Hs & _ & _ & Hd & _ & Ht).
  assert (Hp : exists t, parseLagerTimestamp (lager.Timestamp r) = inl t).
  { unfold parseLagerTimestamp. rewrite Hf. by eexists. }
  destruct Hp as [t Hp]. exists ev, t.
  split; [exact Hs|]. split; [exact Hp|]. split; [by rewrite Ht, Hp|].
  rewrite Hd. unfold Log_fields, lager_fields.
  rewrite (ParseFloat_ok_no_parse_error _ _ Hf), NewSink_NewEvent_data.
  unfold opt_insert.
  destruct (data_of w (lager.Data r) !! "lager_timestamp_parse_error")
    as [v|] eqn:Hpe.
  - apply lookup_union_Some_l. by rewrite lookup_delete_ne.
  - rewrite lookup_union_r by (by rewrite lookup_delete_ne).
    destruct (data_of w (lager.Data r) !! "session");
      destruct (runtime_Caller env 2); simpl.
    all: rewrite ?lookup_insert_ne by done.
    all: apply lookup_empty.
Qed.

Lemma Log_overrides_timestamp_witness :
  exists ev,
    submits (Log sample_env sample_sink (sample_record lager.ERROR "12.5"))
            (sample_world plain_data) ev /\
    libhoney.Timestamp ev = {| time.sec := 12; time.nsec := 500000000 |} /\
    libhoney.data ev !! "lager_timestamp_parse_error" = None.
Proof.
  unfold sample_sink.
  destruct (Log_overrides_timestamp_when_it_parses sample_env
              "write-key" "dataset" lager.INFO
              (sample_record lager.ERROR "12.5") (sample_world plain_data)
              (S754_finite false 7036874417766400 (-49)))
    as (ev & t & Hs & Hp & Ht & Hf).
  - vm_compute. discriminate.
  - vm_compute. reflexivity.
  - exists ev. split; [exact Hs|]. split.
    + rewrite Ht.
      assert (Hv : parseLagerTimestamp "12.5"
                   = inl {| time.sec := 12; time.nsec := 500000000 |})
        by (vm_compute; reflexivity).
      simpl in Hp. rewrite Hv in Hp. by injection Hp as <-.
    + rewrite Hf. vm_compute. reflexivity.
Defined.

Lemma ParseFloat_error_names_input ts e :
  strconv.ParseFloat ts = inr e ->
  strconv.Func e = "ParseFloat" /\ strconv.Num e = ts.
Proof.
  unfold strconv.ParseFloat, strconv.atof64.
  destruct (strconv.special _) as [[v rst]|].
  - destruct rst; [discriminate|]. by intros [= <-].
  - destruct (strconv.readFloat _) as [rd|].
    + match goal with
      | |- context [match ?f with S754_infinity _ => _ | _ => _ end] =>
          destruct f
      end; destruct (strconv.rest rd); try discriminate; by intros [= <-].
    + destruct (list_ascii_of_string ts); by intros [= <-].
Qed.

(** X5.  When the timestamp of a record that passes the filter does not
    parse, the error stored on the event names the function ParseFloat and
    quotes the timestamp string as it was received. *)
Theorem parse_error_field_quotes_the_timestamp env sink r w e :
  minLogLevel sink <= lager.Level r ->
  parseLagerTimestamp (lager.Timestamp r) = inr e ->
  strconv.Func e = "ParseFloat" /\
  strconv.Num e = lager.Timestamp r /\
  exists ev,
    submits (Log env sink r) w ev /\
    libhoney.data ev !! "lager_timestamp_parse_error" = Some (VNumError e).
Proof.
  intros Hlvl He.
  assert (Hpf : strconv.ParseFloat (lager.Timestamp r) = inr e).
  { revert He. unfold parseLagerTimestamp.
    destruct (strconv.ParseFloat _); [discriminate|]. by intros [= ->]. }
  destruct (ParseFloat_error_names_input _ _ Hpf) as [Hfn Hnum].
  split; [exact Hfn|]. split; [exact Hnum|].
  destruct (Log_effect env sink r w Hlvl) as (ev & Hs & _ & _ & Hd & _).
  exists ev. split; [exact Hs|].
  rewrite Hd. unfold Log_fields, parse_error_of. rewrite He. simpl.
  apply lookup_insert_eq.
Qed.

Lemma parse_error_field_quotes_the_timestamp_witness :
  strconv.Num (strconv.rangeError "ParseFloat" "1e400") = "1e400" /\
  exists ev,
    submits (Log sample_env sample_sink (sample_record lager.ERROR "1e400"))
            (sample_world plain_data) ev /\
    libhoney.data ev !! "lager_timestamp_parse_error"
    = Some (VNumError (strconv.rangeError "ParseFloat" "1e400")).
Proof.
  destruct (parse_error_field_quotes_the_timestamp sample_env sample_sink
              (sample_record lager.ERROR "1e400") (sample_world plain_data)
              (strconv.rangeError "ParseFloat" "1e400"))
    as (_ & Hn & Hev).
  - vm_compute. discriminate.
  - vm_compute. reflexivity.
  - split; [exact Hn|exact Hev].
Defined.

(** ** Further properties: which value a field gets *)

(** X6.  On the event of a record that passes the filter, an entry of the
    data wins over any field the sink wrote under the same name: every
    entry other than "session" is on the event with its own value, also
    when it is named like a fixed or dynamic field, the one exception being
    an entry lager_timestamp_parse_error when the timestamp does not
    parse, over which the parse error wins. *)
Theorem data_entry_wins_over_sink_field env sink r w :
  minLogLevel sink <= lager.Level r ->
  exists ev,
    submits (Log env sink r) w ev /\
    (forall key v,
       key <> "session" ->
       data_of w (lager.Data r) !! key = Some v ->
       key <> "lager_timestamp_parse_error" \/
       parse_error_of (lager.Timestamp r) = None ->
       libhoney.data ev !! key = Some v) /\
    (forall e,
       parse_error_of (lager.Timestamp r) = Some e ->
       libhoney.data ev !! "lager_timestamp_parse_error" = Some e).
Proof.
  intros Hlvl.
  destruct (Log_effect env sink r w Hlvl) as (ev & Hs & _ & _ & Hd & _).
  exists ev. split; [exact Hs|]. rewrite Hd. unfold Log_fields. split.
  - intros key v Hkey Hv Hor.
    destruct (parse_error_of (lager.Timestamp r)) as [e|] eqn:Hpe; simpl.
    + rewrite lookup_insert_ne by (destruct Hor; congruence).
      apply lookup_union_Some_l. by rewrite lookup_delete_ne.
    + apply lookup_union_Some_l. by rewrite lookup_delete_ne.
  - intros e ->. simpl. apply lookup_insert_eq.
Qed.

Lemma data_entry_wins_witness :
  exists ev,
    submits (Log sample_env sample_sink
               (sample_record lager.INFO "1504804895.094333887"))
            (sample_world spoofing_data) ev /\
    libhoney.data ev !! "lager_source" = Some (VString "spoofed").
Proof.
  destruct (data_entry_wins_over_sink_field sample_env sample_sink
              (sample_record lager.INFO "1504804895.094333887")
              (sample_world spoofing_data))
    as (ev & Hs & Hwin & _).
  - vm_compute. discriminate.
  - exists ev. split; [exact Hs|].
    apply Hwin; [discriminate|vm_compute; reflexivity|left; discriminate].
Defined.

(** The two fields that render the level. *)
Lemma Log_level_fields env k ds lvl r w :
  lvl <= lager.Level r ->
  exists ev,
    submits (Log env (NewSink k ds lvl) r) w ev /\
    (data_of w (lager.Data r) !! "lager_log_level_iota" = None ->
     libhoney.data ev !! "lager_log_level_iota" = Some (VLogLevel (lager.Level r))) /\
    (data_of w (lager.Data r) !! "lager_log_level" = None ->
     libhoney.data ev !! "lager_log_level"
     = Some (VString (logLevelToString (lager.Level r)))).
Proof.
  intros Hlvl.
  destruct (Log_effect env (NewSink k ds lvl) r w Hlvl)
    as (ev & Hs & _ & _ & Hd & _).
  exists ev. split; [exact Hs|]. rewrite Hd. clear Hd Hs.
  set (d := data_of w (lager.Data r)) in *.
  unfold Log_fields, lager_fields, opt_insert.
  destruct (parse_error_of (lager.Timestamp r)) as [e|];
    destruct (d !! "session") as [s|] eqn:Hsess; simpl.
  all: split; intros Hnone.
  all: rewrite ?lookup_insert_ne by done.
  all: rewrite lookup_union_r by (by rewrite lookup_delete_ne).
  all: rewrite ?lookup_insert_ne by done.
  all: by rewrite lookup_insert_eq.
Qed.

(** X7.  A field of the sink is hidden by a data entry of its own name
    only: whatever else the data holds, each of the four lager fields, each
    of the two dynamic fields, the function field and lager_session has the
    sink's value as soon as the data has no entry of that name; and the
    event never has a field "session". *)
Theorem sink_field_intact_unless_named_in_data env k ds lvl r w :
  lvl <= lager.Level r ->
  exists ev,
    submits (Log env (NewSink k ds lvl) r) w ev /\
    let d := data_of w (lager.Data r) in
    let f := libhoney.data ev in
    (d !! "lager_source" = None ->
     f !! "lager_source" = Some (VString (lager.Source r))) /\
    (d !! "lager_message" = None ->
     f !! "lager_message" = Some (VString (lager.Message r))) /\
    (d !! "lager_log_level_iota" = None ->
     f !! "lager_log_level_iota" = Some (VLogLevel (lager.Level r))) /\
    (d !! "lager_log_level" = None ->
     f !! "lager_log_level" = Some (VString (logLevelToString (lager.Level r)))) /\
    (d !! "function" = None ->
     f !! "function" = VString <$> runtime_Caller env 2) /\
    (d !! "lager_session" = None -> f !! "lager_session" = d !! "session") /\
    (d !! "num_goroutines" = None ->
     f !! "num_goroutines" = Some (VInt (runtime_NumGoroutine env))) /\
    (d !! "memory_allocation" = None ->
     f !! "memory_allocation" = Some (VUint64 (runtime_MemStats_Alloc env))) /\
    f !! "session" = None.
Proof.
  intros Hlvl.
  destruct (Log_effect env (NewSink k ds lvl) r w Hlvl)
    as (ev & Hs & _ & _ & Hd & _).
  exists ev. split; [exact Hs|]. simpl. rewrite Hd. clear Hd Hs.
  set (d := data_of w (lager.Data r)) in *.
  unfold Log_fields, lager_fields, opt_insert. rewrite NewSink_NewEvent_data.
  destruct (parse_error_of (lager.Timestamp r)) as [e|];
    destruct (d !! "session") as [s|] eqn:Hsess;
    destruct (runtime_Caller env 2) as [fn|]; simpl.
  all: repeat split; try intros Hnone.
  all: rewrite ?lookup_insert_ne by done.
  all: rewrite ?lookup_union_r by (by rewrite ?lookup_delete_eq, ?lookup_delete_ne).
  all: rewrite ?lookup_insert_ne by done.
  all: rewrite ?lookup_insert_eq, ?lookup_empty; try done.
Qed.

Lemma sink_field_intact_witness :
  exists ev,
    submits (Log sample_env sample_sink
               (sample_record lager.INFO "1504804895.094333887"))
            (sample_world spoofing_data) ev /\
    libhoney.data ev !! "lager_message"
    = Some (VString "my-component.some-action").
Proof.
  unfold sample_sink.
  destruct (sink_field_intact_unless_named_in_data sample_env
              "write-key" "dataset" lager.INFO
              (sample_record lager.INFO "1504804895.094333887")
              (sample_world spoofing_data))
    as (ev & Hs & _ & Hmsg & _).
  - vm_compute. discriminate.
  - exists ev. split; [exact Hs|]. apply Hmsg. vm_compute. reflexivity.
Defined.

(** X8.  A level above FATAL is no reason to drop a record: it passes
    every sink whose minimum level is one of the four levels, and the event
    labels it "UNKNOWN" while keeping its raw value, unless the data has
    entries of those names. *)
Theorem level_above_FATAL_passes_as_UNKNOWN env k ds lvl r w :
  lager.FATAL < lager.Level r ->
  lager.DEBUG <= lvl <= lager.FATAL ->
  exists ev,
    submits (Log env (NewSink k ds lvl) r) w ev /\
    (data_of w (lager.Data r) !! "lager_log_level" = None ->
     libhoney.data ev !! "lager_log_level" = Some (VString "UNKNOWN")) /\
    (data_of w (lager.Data r) !! "lager_log_level_iota" = None ->
     libhoney.data ev !! "lager_log_level_iota" = Some (VLogLevel (lager.Level r))).
Proof.
  intros Habove Hlvl.
  destruct (Log_level_fields env k ds lvl r w ltac:(lia))
    as (ev & Hs & Hiota & Hname).
  exists ev. split; [exact Hs|]. split; [|exact Hiota].
  intros Hnone. rewrite (Hname Hnone). do 2 f_equal.
  unfold logLevelToString, lager.DEBUG, lager.INFO, lager.ERROR, lager.FATAL in *.
  destruct (Z.eqb_spec (lager.Level r) 0); [lia|].
  destruct (Z.eqb_spec (lager.Level r) 1); [lia|].
  destruct (Z.eqb_spec (lager.Level r) 2); [lia|].
  destruct (Z.eqb_spec (lager.Level r) 3); [lia|done].
Qed.

Lemma level_above_FATAL_witness :
  exists ev,
    submits (Log sample_env sample_sink (sample_record 7 "1504804895.094333887"))
            (sample_world plain_data) ev /\
    libhoney.data ev !! "lager_log_level" = Some (VString "UNKNOWN") /\
    libhoney.data ev !! "lager_log_level_iota" = Some (VLogLevel 7).
Proof.
  unfold sample_sink.
  destruct (level_above_FATAL_passes_as_UNKNOWN sample_env
              "write-key" "dataset" lager.INFO
              (sample_record 7 "1504804895.094333887") (sample_world plain_data))
    as (ev & Hs & Hname & Hiota).
  - vm_compute. reflexivity.
  - vm_compute. split; discriminate.
  - exists ev. split; [exact Hs|]. split.
    + apply Hname. vm_compute. reflexivity.
    + apply Hiota. vm_compute. reflexivity.
Defined.

(** ** Further properties: what a call prints *)

(** X9.  [Log] prints at most one line, and only the error the transport
    returned for the event of this call: a record below the minimum level
    and a timestamp that does not parse print nothing, and what was printed
    before stays. *)
Theorem Log_prints_only_the_transport_error env sink r w :
  stdout (snd (Log env sink r w)) = stdout w \/
  exists ev e,
    submits (Log env sink r) w ev /\
    transport_Send env ev = Some e /\
    stdout (snd (Log env sink r w)) = stdout w ++ [HoneylagerError e].
Proof.
  destruct (Z.lt_ge_cases (lager.Level r) (minLogLevel sink)) as [Hlt|Hge].
  - left. by rewrite Log_filtered.
  - destruct (Log_effect env sink r w Hge) as (ev & Hs & _ & Ho & _).
    destruct (transport_Send env ev) as [e|] eqn:Hsend.
    + right. by exists ev, e.
    + left. by rewrite Ho, app_nil_r.
Qed.

(** ** Further properties: calls one after the other *)

(** X10.  Once [Log] has handled a record that passes the filter, the map
    of the record has no "session" entry any more: a second call on the same
    record, by this sink or another, changes nothing in the store, and its
    event has no lager_session field from the session, only the data's own
    entry of that name if there is one. *)
Theorem second_Log_finds_no_session env1 sink1 env2 k ds lvl r w :
  minLogLevel sink1 <= lager.Level r ->
  lvl <= lager.Level r ->
  let w1 := snd (Log env1 sink1 r w) in
  data_of w1 (lager.Data r) !! "session" = None /\
  heap (snd (Log env2 (NewSink k ds lvl) r w1)) = heap w1 /\
  exists ev2,
    submits (Log env2 (NewSink k ds lvl) r) w1 ev2 /\
    libhoney.data ev2 !! "lager_session"
    = data_of w (lager.Data r) !! "lager_session".
Proof.
  intros H1 H2 w1.
  destruct (Log_effect env1 sink1 r w H1) as (ev1 & _ & Hh1 & _).
  assert (Hd1 : data_of w1 (lager.Data r)
                = delete "session" (data_of w (lager.Data r)))
    by (by apply data_of_after_delete).
  assert (Hgone : data_of w1 (lager.Data r) !! "session" = None)
    by (rewrite Hd1; apply lookup_delete_eq).
  split; [exact Hgone|].
  destruct (Log_effect env2 (NewSink k ds lvl) r w1 H2)
    as (ev2 & Hs2 & Hh2 & _ & Hdata2 & _).
  split.
  - rewrite Hh2. unfold data_of, map_entries in Hgone. simpl in Hgone.
    destruct (lager.Data r) as [l|]; [|done].
    apply alter_id. intros x Hx. rewrite Hx in Hgone. by apply delete_id.
  - exists ev2. split; [exact Hs2|].
    rewrite Hdata2. unfold Log_fields, lager_fields, opt_insert.
    rewrite Hgone, NewSink_NewEvent_data.
    rewrite (delete_id _ _ Hgone), Hd1.
    assert (Hrest : forall m : gmap string Value,
              (delete "session" (data_of w (lager.Data r)) ∪ m) !! "lager_session"
              = match data_of w (lager.Data r) !! "lager_session" with
                | Some v => Some v
                | None => m !! "lager_session"
                end).
    { intros m. rewrite lookup_union, lookup_delete_ne by done.
      destruct (data_of w (lager.Data r) !! "lager_session");
        destruct (m !! "lager_session"); done. }
    destruct (parse_error_of (lager.Timestamp r));
      destruct (runtime_Caller env2 2); simpl.
    all: rewrite ?lookup_insert_ne by done.
    all: rewrite Hrest.
    all: rewrite ?lookup_insert_ne by done.
    all: rewrite lookup_empty.
    all: by destruct (data_of w (lager.Data r) !! "lager_session").
Qed.

Lemma second_Log_finds_no_session_witness :
  exists ev2,
    submits (Log sample_env sample_sink
               (sample_record lager.ERROR "1504804895.094333887"))
            (snd (Log quiet_env sample_sink
                    (sample_record lager.ERROR "1504804895.094333887")
                    (sample_world session_data))) ev2 /\
    libhoney.data ev2 !! "lager_session" = None.
Proof.
  unfold sample_sink at 1.
  destruct (second_Log_finds_no_session quiet_env sample_sink sample_env
              "write-key" "dataset" lager.INFO
              (sample_record lager.ERROR "1504804895.094333887")
              (sample_world session_data))
    as (_ & _ & ev2 & Hs & Hl).
  - vm_compute. discriminate.
  - vm_compute. discriminate.
  - exists ev2. split; [exact Hs|]. rewrite Hl. vm_compute. reflexivity.
Defined.

Lemma Log_all_cons sink c rest w :
  Log_all sink (c :: rest) w = Log_all sink rest (snd (Log (fst c) sink (snd c) w)).
Proof.
  simpl. unfold bind. by destruct (Log (fst c) sink (snd c) w) as [[] w'].
Qed.

(** X11.  Logging records one after the other submits one event for each
    record that passes the filter, and none for the others: the events
    sent before are kept, and the new ones follow in the order of the
    calls, each with the token drawn in its own call. *)
Theorem Log_all_submits_one_event_per_passing_record sink calls w :
  exists evs,
    sent (snd (Log_all sink calls w)) = sent w ++ evs /\
    length evs = length (passing sink calls) /\
    map libhoney.Metadata evs
    = map (fun c => VMap {[ metadataKeyID :=
                              VInt (rand_Intn (fst c) GoNum.MaxInt32) ]})
          (passing sink calls).
Proof.
  revert w; induction calls as [|c rest IH]; intros w.
  - exists []. simpl. by rewrite app_nil_r.
  - rewrite Log_all_cons.
    destruct (IH (snd (Log (fst c) sink (snd c) w))) as (evs & Hsent & Hlen & Hmeta).
    unfold passing in *. rewrite filter_cons.
    destruct (decide (minLogLevel sink <= lager.Level (snd c))) as [Hge|Hlt].
    + destruct (Log_effect (fst c) sink (snd c) w Hge)
        as (ev & Hs & _ & _ & _ & Hm & _).
      exists (ev :: evs). rewrite Hsent, Hs, <- app_assoc. simpl.
      split; [done|]. split; [by rewrite Hlen|]. by rewrite Hm, Hmeta.
    + exists evs. rewrite Hsent, Log_filtered by lia. done.
Qed.

(** ** Further properties: the reader of delivery outcomes *)

Lemma printed_inj l1 l2 w : printed l1 w = printed l2 w -> l1 = l2.
Proof.
  unfold printed. intros H. injection H as H.
  apply app_inv_head in H. by injection H.
Qed.

(** X12.  The status code alone decides between a failure and the look at
    the metadata, with 200 the first and 299 the last code of success: the
    reader prints the bad-status failure exactly for the codes below 200 or
    from 300 on, whatever the metadata, and a success line exactly for a
    code from 200 to 299 together with metadata that is a map. *)
Theorem ReadResponses_status_decides_first r w :
  (ReadResponses_body r w
   = (tt, printed (HoneylagerError
                     (BadStatusCode (StatusCode r) (Err r) (Body r))) w)
   <-> StatusCode r < 200 \/ 300 <= StatusCode r) /\
  ((exists id d, ReadResponses_body r w = (tt, printed (SuccessfullySent id d) w))
   <-> 200 <= StatusCode r < 300 /\ exists m, Metadata r = VMap m).
Proof.
  unfold ReadResponses_body, printError, Printf.
  fold (printed (HoneylagerError (BadStatusCode (StatusCode r) (Err r) (Body r))) w).
  destruct (Z.lt_ge_cases (StatusCode r) 200) as [Hlo|Hlo];
    [|destruct (Z.lt_ge_cases (StatusCode r) 300) as [Hhi|Hhi]].
  - rewrite (failure_range_test r (or_introl Hlo)). split.
    + split; [by left|done].
    + split; [|lia]. intros (id & d & H). injection H as H.
      apply app_inv_head in H. discriminate H.
  - rewrite (success_range_test r (conj Hlo Hhi)). split.
    + split; [|lia]. intros H. exfalso.
      destruct (Metadata r); injection H as H; apply app_inv_head in H;
        discriminate H.
    + split.
      * intros (id & d & H). split; [lia|].
        destruct (Metadata r) as [| | | | | | | |m]; try by eexists.
        all: injection H as H; apply app_inv_head in H; discriminate H.
      * intros (_ & m & ->). by eexists _, _.
  - rewrite (failure_range_test r (or_intror Hhi)). split.
    + split; [by right|done].
    + split; [|lia]. intros (id & d & H). injection H as H.
      apply app_inv_head in H. discriminate H.
Qed.

Lemma ReadResponses_status_decides_first_witness :
  ReadResponses_body (sample_response 300 (VMap {[ "id" := VInt 42 ]}))
    (sample_world plain_data)
  = (tt, printed (HoneylagerError (BadStatusCode 300 None "body"))
           (sample_world plain_data)).
Proof.
  apply (ReadResponses_status_decides_first
           (sample_response 300 (VMap {[ "id" := VInt 42 ]}))
           (sample_world plain_data)).
  right. simpl. lia.
Defined.

(** X13.  The token comes back: for every event [Log] submits, an outcome
    with a status code of success that returns the event's metadata
    unchanged makes the reader print one success line, with the very token
    drawn for that event and the outcome's duration. *)
Theorem token_round_trip env sink r w ev resp w' :
  submits (Log env sink r) w ev ->
  200 <= StatusCode resp < 300 ->
  Metadata resp = libhoney.Metadata ev ->
  ReadResponses_body resp w'
  = (tt, printed (SuccessfullySent (VInt (rand_Intn env GoNum.MaxInt32))
                                   (Duration resp)) w').
Proof.
  intros Hs Hcode Hmeta.
  rewrite (Log_token env sink r w ev Hs) in Hmeta.
  unfold ReadResponses_body. rewrite (success_range_test resp Hcode), Hmeta.
  by rewrite lookup_singleton_eq.
Qed.

Lemma token_round_trip_witness :
  ReadResponses_body
    (sample_response 202
       (libhoney.Metadata
          (sample_event (sample_record lager.ERROR "1504804895.094333887")
                        (sample_world plain_data))))
    (sample_world plain_data)
  = (tt, printed (SuccessfullySent (VInt 7) 1500000) (sample_world plain_data)).
Proof.
  apply (token_round_trip sample_env sample_sink
           (sample_record lager.ERROR "1504804895.094333887")
           (sample_world plain_data)
           (sample_event (sample_record lager.ERROR "1504804895.094333887")
                         (sample_world plain_data))).
  - vm_compute. reflexivity.
  - simpl. lia.
  - reflexivity.
Defined.

Lemma ReadResponses_run_app rs1 rs2 w :
  ReadResponses_run Ranging (map Received (rs1 ++ rs2)) w
  = ReadResponses_run Ranging (map Received rs2)
      (snd (ReadResponses_run Ranging (map Received rs1) w)).
Proof.
  revert w; induction rs1 as [|r rs1 IH]; intros w; [done|].
  change (map Received ((r :: rs1) ++ rs2))
    with (Received r :: map Received (rs1 ++ rs2)).
  change (map Received (r :: rs1)) with (Received r :: map Received rs1).
  by rewrite !ReadResponses_run_cons_Received, IH.
Qed.

Lemma ReadResponses_run_frame rs w :
  heap (snd (ReadResponses_run Ranging (map Received rs) w)) = heap w /\
  sent (snd (ReadResponses_run Ranging (map Received rs) w)) = sent w /\
  exists lines,
    stdout (snd (ReadResponses_run Ranging (map Received rs) w))
    = stdout w ++ lines /\ length lines = length rs.
Proof.
  revert w; induction rs as [|r rs IH]; intros w.
  - simpl. repeat split. exists []. by rewrite app_nil_r.
  - change (map Received (r :: rs)) with (Received r :: map Received rs).
    rewrite ReadResponses_run_cons_Received.
    destruct (ReadResponses_body_prints_one r w) as (l & ->).
    destruct (IH (snd (tt, printed l w))) as (-> & -> & lines & -> & Hlen).
    simpl. repeat split. exists (l :: lines).
    rewrite <- app_assoc. simpl. by rewrite Hlen.
Qed.

Lemma ReadResponses_snd rs w :
  snd (ReadResponses rs w) = snd (ReadResponses_run Ranging (map Received rs) w).
Proof.
  unfold ReadResponses.
  revert w; induction rs as [|r rs IH]; intros w.
  - reflexivity.
  - change (map Received (r :: rs) ++ [Closed])
      with (Received r :: (map Received rs ++ [Closed])).
    change (map Received (r :: rs)) with (Received r :: map Received rs).
    by rewrite !ReadResponses_run_cons_Received, IH.
Qed.

(** X14.  The reader only prints: it leaves the store and the submitted
    events alone, keeps what was printed before and adds one line per
    outcome; a channel closed before any outcome makes it return without a
    line; and reading two batches of outcomes in two runs prints what
    reading them in one run prints. *)
Theorem ReadResponses_only_prints rs w :
  heap (snd (ReadResponses rs w)) = heap w /\
  sent (snd (ReadResponses rs w)) = sent w /\
  (exists lines,
     stdout (snd (ReadResponses rs w)) = stdout w ++ lines /\
     length lines = length rs) /\
  ReadResponses [] w = (Returned, w) /\
  (forall rs2,
     snd (ReadResponses (rs ++ rs2) w)
     = snd (ReadResponses rs2 (snd (ReadResponses rs w)))).
Proof.
  rewrite ReadResponses_snd.
  destruct (ReadResponses_run_frame rs w) as (Hh & Hs & Hl).
  split; [exact Hh|]. split; [exact Hs|]. split; [exact Hl|].
  split; [reflexivity|].
  intros rs2. by rewrite !ReadResponses_snd, ReadResponses_run_app.
Qed.

(** ** Further properties: the earlier revision *)

(** X15.  The earlier revision of [Log] never changes the caller's store,
    and forwards every entry of the data under its own name, "session"
    included; the one exception is an entry lager_timestamp_parse_error
    when the timestamp does not parse.  On a sink made by [NewSink] its
    event has a field function or lager_session only if the data has an
    entry of that name. *)
Theorem Legacy_Log_forwards_data_untouched env k ds lvl r w :
  heap (snd (Legacy.Log env (NewSink k ds lvl) r w)) = heap w /\
  (lvl <= lager.Level r ->
   exists ev,
     submits (Legacy.Log env (NewSink k ds lvl) r) w ev /\
     (forall key v,
        data_of w (lager.Data r) !! key = Some v ->
        key <> "lager_timestamp_parse_error" \/
        parse_error_of (lager.Timestamp r) = None ->
        libhoney.data ev !! key = Some v) /\
     libhoney.data ev !! "function" = data_of w (lager.Data r) !! "function" /\
     libhoney.data ev !! "lager_session"
     = data_of w (lager.Data r) !! "lager_session").
Proof.
  split.
  - destruct (Z.lt_ge_cases (lager.Level r) lvl) as [Hlt|Hge].
    + by rewrite Legacy_filtered.
    + by destruct (Legacy_effect env (NewSink k ds lvl) r w Hge) as (ev & _ & -> & _).
  - intros Hge.
    destruct (Legacy_effect env (NewSink k ds lvl) r w Hge)
      as (ev & Hs & _ & _ & Hd & _).
    exists ev. split; [exact Hs|]. rewrite Hd.
    unfold Legacy_fields, lager_fields. rewrite NewSink_NewEvent_data.
    assert (Hrest : forall key,
              key = "function" \/ key = "lager_session" ->
              (opt_insert "lager_timestamp_parse_error"
                 (parse_error_of (lager.Timestamp r))
                 (data_of w (lager.Data r) ∪
                  <["lager_log_level" := VString (logLevelToString (lager.Level r))]>
                    (<["lager_log_level_iota" := VLogLevel (lager.Level r)]>
                       (<["lager_message" := VString (lager.Message r)]>
                          (<["lager_source" := VString (lager.Source r)]>
                             (<["memory_allocation" :=
                                  VUint64 (runtime_MemStats_Alloc env)]>
                                (<["num_goroutines" :=
                                     VInt (runtime_NumGoroutine env)]> ∅))))))) !! key
              = data_of w (lager.Data r) !! key).
    { intros key Hkey. unfold opt_insert.
      destruct (parse_error_of (lager.Timestamp r)).
      all: rewrite ?lookup_insert_ne by (destruct Hkey as [-> | ->]; done).
      all: rewrite lookup_union.
      all: rewrite !lookup_insert_ne by (destruct Hkey as [-> | ->]; done).
      all: rewrite lookup_empty.
      all: by destruct (data_of w (lager.Data r) !! key). }
    split; [|split; apply Hrest; auto].
    intros key v Hv Hor. unfold opt_insert.
    destruct (parse_error_of (lager.Timestamp r)) as [e|] eqn:Hpe.
    + rewrite lookup_insert_ne by (destruct Hor; congruence).
      by apply lookup_union_Some_l.
    + by apply lookup_union_Some_l.
Qed.

Lemma Legacy_Log_forwards_data_witness :
  exists ev,
    submits (Legacy.Log sample_env sample_sink
               (sample_record lager.ERROR "1504804895.094333887"))
            (sample_world session_data) ev /\
    libhoney.data ev !! "session" = Some (VString "7") /\
    libhoney.data ev !! "function" = None.
Proof.
  unfold sample_sink.
  destruct (Legacy_Log_forwards_data_untouched sample_env
              "write-key" "dataset" lager.INFO
              (sample_record lager.ERROR "1504804895.094333887")
              (sample_world session_data))
    as (_ & Hev).
  destruct Hev as (ev & Hs & Hfwd & Hfn & _).
  - vm_compute. discriminate.
  - exists ev. split; [exact Hs|]. split.
    + apply Hfwd; [vm_compute; reflexivity|left; discriminate].
    + rewrite Hfn. vm_compute. reflexivity.
Defined.
